(** * AppStateWatcher: a shallow embedding

    Source: docs/source-app/workflows/add_web_ui/panel/examples/app_state_watcher.py

    The class [AppStateWatcher] is a [param.Parameterized] singleton that
    holds one reactive attribute, [state], and keeps it fresh: it registers
    its bound method [_update_flow_state] with [watch_app_state] and, on each
    call of that method, assigns to [state] whatever [get_flow_state] returns
    for the flow named by the environment variable LIGHTNING_FLOW_NAME.

    The Python code is stateful and raises exceptions, so it is embedded in a
    state-and-exception monad over an explicit [World]: the process
    environment, the remote flow states, the callback registry, the class
    attribute [_instance], the object heap and a trace of the calls made to
    the collaborators. *)

From stdpp Require Import base gmap strings list.

Open Scope string_scope.

(** ** Python values and exceptions *)

(** Objects are identified by their address in the heap; Python's [is]
    is equality of addresses. *)
Definition objid := nat.

Inductive exn : Type :=
| KeyError (key : string)          (* os.environ[key] with key absent *)
| ValueError (msg : string)        (* param rejects the assigned value *)
| TypeError (msg : string)         (* param refuses to set a constant *)
| AttributeError (attr : string)   (* attribute lookup failed *)
| Exception (msg : string)         (* raise Exception(msg) in __init__ *)
| RemoteError (msg : string).      (* raised by the snapshot-fetch collaborator *)

(** The snapshot class [lightning_app.utilities.state.AppState] lives in
    another module. The watcher only ever tests a snapshot for truth, reads
    its [_state] attribute and tests that for truth, so this is the interface
    the embedding asks of it. *)
Class Snapshot (AppState Payload : Type) : Type := {
  (** [bool(s)] for a snapshot [s]. *)
  AppState_bool : AppState -> bool;
  (** [s._state]; [None] is Python's [None]. *)
  AppState_state : AppState -> option Payload;
  (** [bool(p)] for a payload [p] other than [None]. *)
  Payload_bool : Payload -> bool;
}.

Section Watcher.

Context {AppState Payload : Type} {snap : Snapshot AppState Payload}.

(** What a call of [get_flow_state] can hand back: [None], an instance of
    [AppState], or an object of some other class (a mock, say). *)
Inductive pyval : Type :=
| PyNone
| PyAppState (s : AppState)
| PyOther (cls : string).

Inductive fetch_result : Type :=
| Fetched (v : pyval)
| FetchRaises (e : exn).

(** ** The watcher object *)

Record Watcher : Type := mkWatcher {
  name : option string;        (* Parameterized.name *)
  state : option AppState;     (* the parameter [state]; [None] is Python's None *)
  allow_None : bool;           (* self.param.state.allow_None *)
  constant : bool;             (* self.param.state.constant *)
  _initilized : bool;          (* hasattr(self, "_initilized") *)
}.

(** A freshly allocated instance: no instance attribute yet, so every
    parameter reads as declared on the class: [name] is the name of the
    class, and [state] is
    [param.ClassSelector(class_=AppState, constant=True)] with default None,
    which makes [allow_None] true. *)
Definition blank : Watcher :=
  {| name := Some "AppStateWatcher"; state := None; allow_None := true;
     constant := true; _initilized := false |}.

Inductive pyobj : Type :=
| ObjWatcher (o : Watcher)
| ObjOther.

(** ** The world *)

Inductive event : Type :=
| EvFetch (flow : string)                         (* get_flow_state(flow) *)
| EvChange (self : objid) (old new : option AppState)
                                                  (* param notifies the dependents of [state] *)
| EvDebug (msg : string).                         (* _logger.debug(msg) *)

Record World : Type := mkWorld {
  environ : gmap string string;     (* os.environ *)
  flows : string -> fetch_result;   (* what get_flow_state(flow) yields right now *)
  _CALLBACKS : list objid;          (* watch_app_state's registry: the objects whose
                                       bound method _update_flow_state was registered *)
  _instance : option objid;         (* the class attribute AppStateWatcher._instance *)
  heap : gmap objid pyobj;
  trace : list event;
}.

Definition set_heap (h : gmap objid pyobj) (w : World) : World :=
  {| environ := environ w; flows := flows w; _CALLBACKS := _CALLBACKS w;
     _instance := _instance w; heap := h; trace := trace w |}.

Definition set_trace (t : list event) (w : World) : World :=
  {| environ := environ w; flows := flows w; _CALLBACKS := _CALLBACKS w;
     _instance := _instance w; heap := heap w; trace := t |}.

Definition set_callbacks (c : list objid) (w : World) : World :=
  {| environ := environ w; flows := flows w; _CALLBACKS := c;
     _instance := _instance w; heap := heap w; trace := trace w |}.

Definition set_cls_instance (i : option objid) (w : World) : World :=
  {| environ := environ w; flows := flows w; _CALLBACKS := _CALLBACKS w;
     _instance := i; heap := heap w; trace := trace w |}.

Definition set_environ (e : gmap string string) (w : World) : World :=
  {| environ := e; flows := flows w; _CALLBACKS := _CALLBACKS w;
     _instance := _instance w; heap := heap w; trace := trace w |}.

Definition set_flows (f : string -> fetch_result) (w : World) : World :=
  {| environ := environ w; flows := f; _CALLBACKS := _CALLBACKS w;
     _instance := _instance w; heap := heap w; trace := trace w |}.

(** ** State and exceptions *)

(** A computation either returns a value or raises; both leave a world
    behind, since a Python exception does not undo the writes made before
    it. *)
Inductive outcome (A : Type) : Type :=
| Return (a : A) (w : World)
| Raise (e : exn) (w : World).
#[global] Arguments Return {A} a w.
#[global] Arguments Raise {A} e w.

Definition M (A : Type) : Type := World -> outcome A.

Definition world_of {A} (r : outcome A) : World :=
  match r with Return _ w => w | Raise _ w => w end.

Definition returns {A} (r : outcome A) : bool :=
  match r with Return _ _ => true | Raise _ _ => false end.

Definition raised {A} (r : outcome A) : option exn :=
  match r with Return _ _ => None | Raise e _ => Some e end.

Definition ret {A} (a : A) : M A := fun w => Return a w.

Definition bind {A B} (m : M A) (k : A -> M B) : M B :=
  fun w => match m w with
           | Return a w' => k a w'
           | Raise e w' => Raise e w'
           end.

Definition raise {A} (e : exn) : M A := fun w => Raise e w.

Definition get : M World := fun w => Return w w.

Definition modify (f : World -> World) : M unit := fun w => Return tt (f w).

(** [try: body finally: fin]. *)
Definition try_finally {A} (body : M A) (fin : M unit) : M A :=
  fun w => match body w with
           | Return a w' => match fin w' with
                            | Return _ w'' => Return a w''
                            | Raise e w'' => Raise e w''
                            end
           | Raise e w' => match fin w' with
                           | Return _ w'' => Raise e w''
                           | Raise e' w'' => Raise e' w''
                           end
           end.

#[global] Instance M_ret : MRet M := @ret.
#[global] Instance M_bind : MBind M := fun A B k m => bind m k.

(** ** Attribute access on a watcher *)

Definition lookup_watcher (self : objid) (w : World) : option Watcher :=
  match heap w !! self with
  | Some (ObjWatcher o) => Some o
  | _ => None
  end.

Definition read_self (self : objid) : M Watcher :=
  fun w => match lookup_watcher self w with
           | Some o => Return o w
           | None => Raise (AttributeError "self") w
           end.

Definition write_self (self : objid) (f : Watcher -> Watcher) : M unit :=
  o ← read_self self;
  modify (fun w => set_heap (<[self := ObjWatcher (f o)]> (heap w)) w).

Definition with_name (n : option string) (o : Watcher) : Watcher :=
  {| name := n; state := state o; allow_None := allow_None o;
     constant := constant o; _initilized := _initilized o |}.
Definition with_state (s : option AppState) (o : Watcher) : Watcher :=
  {| name := name o; state := s; allow_None := allow_None o;
     constant := constant o; _initilized := _initilized o |}.
Definition with_allow_None (b : bool) (o : Watcher) : Watcher :=
  {| name := name o; state := state o; allow_None := b;
     constant := constant o; _initilized := _initilized o |}.
Definition with_constant (b : bool) (o : Watcher) : Watcher :=
  {| name := name o; state := state o; allow_None := allow_None o;
     constant := b; _initilized := _initilized o |}.
Definition with_initilized (b : bool) (o : Watcher) : Watcher :=
  {| name := name o; state := state o; allow_None := allow_None o;
     constant := constant o; _initilized := b |}.

Definition log (e : event) : M unit :=
  modify (fun w => set_trace (trace w ++ [e]) w).

(** ** The collaborators *)

(** [os.environ[key]]. *)
Definition os_environ_getitem (key : string) : M string :=
  w ← get;
  match environ w !! key with
  | Some v => ret v
  | None => raise (KeyError key)
  end.

(** Modelled from the spec: [get_flow_state], the snapshot-fetch function,
    which "given a target name, returns the current external state snapshot
    synchronously; may raise/fail if the target is unreachable or unnamed".
    The current answer for each name is the world's [flows]. *)
Definition get_flow_state (flow : string) : M pyval :=
  log (EvFetch flow);;
  w ← get;
  match flows w flow with
  | Fetched v => ret v
  | FetchRaises e => raise e
  end.

(** Modelled from the spec: [watch_app_state], the change-notification
    registration function, which "accepts a zero-argument callback, invoked
    whenever remote state changes". The callback is always the bound method
    [self._update_flow_state], so the registry records [self]. *)
Definition watch_app_state (self : objid) : M unit :=
  modify (fun w => set_callbacks (_CALLBACKS w ++ [self]) w).

(** [_logger.debug(msg)]. *)
Definition logger_debug (msg : string) : M unit := log (EvDebug msg).

(** *** param *)

(** [param.Parameterized.__init__(self, name=n)]: the instance's parameters
    are set up afresh from their class declarations. *)
Definition Parameterized__init__ (self : objid) (n : string) : M unit :=
  write_self self
    (fun o => with_name (Some n)
                (with_state None (with_allow_None true (with_constant true o)))).

(** [with param.edit_constant(self): body]: the parameters of [self] stop
    being constant for the time of [body]; the flag is restored on the way out,
    also when [body] raises. *)
Definition edit_constant {A} (self : objid) (body : M A) : M A :=
  o ← read_self self;
  write_self self (with_constant false);;
  try_finally body (write_self self (with_constant (constant o))).

(** The check [ClassSelector(class_=AppState)] makes on a value before it is
    stored: [None] passes when [allow_None] holds, an [AppState] instance
    always passes, nothing else does. *)
Definition ClassSelector_validate (allow : bool) (v : pyval)
  : exn + option AppState :=
  match v with
  | PyNone =>
      if allow then inr None
      else inl (ValueError "ClassSelector parameter 'state' value must be an instance of AppState, not None.")
  | PyAppState s => inr (Some s)
  | PyOther c =>
      inl (ValueError "ClassSelector parameter 'state' value must be an instance of AppState.")
  end.

(** param's comparator, by which it decides whether a dependent is told of
    an assignment: [None] equals [None]; two objects of a class it knows
    nothing about, such as [AppState], never count as equal, whatever they
    hold. *)
Definition param_changed (old new : option AppState) : bool :=
  match old, new with
  | None, None => false
  | _, _ => true
  end.

(** What the dependents of [state] get to see of an assignment. *)
Definition notice (self : objid) (old new : option AppState) : list event :=
  if param_changed old new then [EvChange self old new] else [].

(** [self.state = v]: param's descriptor validates [v], refuses to change a
    constant parameter, stores the value and notifies the dependents of
    [state], unless its comparator finds old and new equal. The refresh
    always assigns inside [edit_constant], where no parameter is constant. *)
Definition setattr_state (self : objid) (v : pyval) : M unit :=
  o ← read_self self;
  match ClassSelector_validate (allow_None o) v with
  | inl e => raise e
  | inr s =>
      if constant o
      then raise (TypeError "Constant parameter 'state' cannot be modified")
      else
        write_self self (with_state s);;
        modify (fun w => set_trace (trace w ++ notice self (state o) s) w)
  end.

(** [object.__new__(cls)]: a fresh address. *)
Definition object__new__ : M objid :=
  w ← get;
  let self := fresh (dom (heap w)) in
  modify (fun w => set_heap (<[self := ObjWatcher blank]> (heap w)) w);;
  ret self.

(** ** The class AppStateWatcher *)

(** <<
    def __new__(cls):
        if not hasattr(cls, "_instance"):
            cls._instance = super().__new__(cls)
        return cls._instance
    >> *)
Definition __new__ : M objid :=
  w ← get;
  (if negb (bool_decide (is_Some (_instance w))) then
     self ← object__new__;
     modify (set_cls_instance (Some self))
   else ret tt);;
  w ← get;
  match _instance w with
  | Some self => ret self
  | None => raise (AttributeError "_instance")
  end.

(** <<
    def _get_flow_state(self) -> AppState:
        flow = os.environ["LIGHTNING_FLOW_NAME"]
        return get_flow_state(flow)
    >> *)
Definition _get_flow_state (self : objid) : M pyval :=
  flow ← os_environ_getitem "LIGHTNING_FLOW_NAME";
  get_flow_state flow.

(** <<
    def _update_flow_state(self):
        with param.edit_constant(self):
            self.state = self._get_flow_state()
        _logger.debug("Request app state")
    >> *)
Definition _update_flow_state (self : objid) : M unit :=
  edit_constant self
    (v ← _get_flow_state self;
     setattr_state self v);;
  logger_debug "Request app state".

(** <<
    def _start_watching(self):
        watch_app_state(self._update_flow_state)
        self._update_flow_state()
    >> *)
Definition _start_watching (self : objid) : M unit :=
  watch_app_state self;;
  _update_flow_state self.

(** The two checks that close [__init__]: <<
        if not self.state:
            raise Exception(".state has not been set.")
        if not self.state._state:
            raise Exception(".state._state has not been set.")
    >> *)
Definition py_not_state (s : option AppState) : bool :=
  match s with
  | None => true
  | Some a => negb (AppState_bool a)
  end.

Definition py_not_payload (p : option Payload) : bool :=
  match p with
  | None => true
  | Some x => negb (Payload_bool x)
  end.

Definition check_state (self : objid) : M unit :=
  o ← read_self self;
  if py_not_state (state o)
  then raise (Exception ".state has not been set.")
  else if py_not_payload (state o ≫= AppState_state)
       then raise (Exception ".state._state has not been set.")
       else ret tt.

(** <<
    @requires("param")
    def __init__(self):
        if not hasattr(self, "_initilized"):
            super().__init__(name="singleton")
            self._start_watching()
            self.param.state.allow_None = False
            self._initilized = True
        ...
    >>
    The decorator only checks that the module [param] can be imported, which
    the class statement has already done. [initialize] is the body of the
    [if], [setup] the [if] itself, and [check_state] the two checks after
    it. *)
Definition initialize (self : objid) : M unit :=
  Parameterized__init__ self "singleton";;
  _start_watching self;;
  write_self self (with_allow_None false);;
  write_self self (with_initilized true).

Definition setup (self : objid) : M unit :=
  o ← read_self self;
  if negb (_initilized o) then initialize self else mret tt.

Definition __init__ (self : objid) : M unit :=
  setup self;;
  check_state self.

(** [AppStateWatcher()]: the class is called, which runs [__new__] and then
    [__init__] on what it returned. *)
Definition AppStateWatcher : M objid :=
  self ← __new__;
  __init__ self;;
  ret self.

(** ** The process *)

(** What can happen in a process that uses the class: a caller constructs,
    the notifier calls back, the environment or the remote flows change, or
    unrelated code allocates an object. An exception is the caller's to
    handle; the process goes on. *)
Inductive op : Type :=
| Construct                              (* AppStateWatcher() *)
| Call (k : nat)                         (* the notifier calls the k-th registered callback *)
| Putenv (key value : string)            (* os.environ[key] = value *)
| Unsetenv (key : string)                (* os.environ.pop(key, None) *)
| Remote (f : string -> fetch_result)    (* the remote flows move on *)
| Alloc.                                 (* an object of another class is created *)

Definition perform (o : op) : M (option objid) :=
  match o with
  | Construct => self ← AppStateWatcher; mret (Some self)
  | Call k =>
      w ← get;
      match _CALLBACKS w !! k with
      | Some self => _update_flow_state self;; mret None
      | None => mret None
      end
  | Putenv key value =>
      modify (fun w => set_environ (<[key := value]> (environ w)) w);; mret None
  | Unsetenv key =>
      modify (fun w => set_environ (delete key (environ w)) w);; mret None
  | Remote f => modify (set_flows f);; mret None
  | Alloc =>
      modify (fun w => set_heap (<[fresh (dom (heap w)) := ObjOther]> (heap w)) w);;
      mret None
  end.

Inductive result : Type :=
| Returned (r : option objid)
| Raised (e : exn).

Definition result_of (r : outcome (option objid)) : result :=
  match r with
  | Return a _ => Returned a
  | Raise e _ => Raised e
  end.

Fixpoint run (ops : list op) (w : World) : list result * World :=
  match ops with
  | [] => ([], w)
  | o :: ops' =>
      let r := perform o w in
      let rest := run ops' (world_of r) in
      (result_of r :: rest.1, rest.2)
  end.

(** A process starts with no instance, no callback and an empty heap. *)
Definition boot (env : gmap string string) (fl : string -> fetch_result) : World :=
  {| environ := env; flows := fl; _CALLBACKS := []; _instance := None;
     heap := ∅; trace := [] |}.

Definition reachable (w : World) : Prop :=
  exists env fl ops, (run ops (boot env fl)).2 = w.

(** *** Threads

    [__new__] has no lock. To see what that means when several threads make
    the first access together, the method is cut at the points where the
    interpreter may switch threads: after the test of the [if], after the
    assignment, and at the [return]. *)
Inductive pc : Type :=
| AtTest                  (* about to evaluate [not hasattr(cls, "_instance")] *)
| AtCreate                (* test passed; about to run [cls._instance = super().__new__(cls)] *)
| AtReturn                (* about to run [return cls._instance] *)
| Finished (self : objid).

Definition thread_step (p : pc) : M pc :=
  match p with
  | AtTest =>
      w ← get;
      if negb (bool_decide (is_Some (_instance w))) then mret AtCreate
      else mret AtReturn
  | AtCreate =>
      self ← object__new__;
      modify (set_cls_instance (Some self));;
      mret AtReturn
  | AtReturn =>
      w ← get;
      match _instance w with
      | Some self => mret (Finished self)
      | None => raise (AttributeError "_instance")
      end
  | Finished self => mret (Finished self)
  end.

(** One thread running alone, from the test to the [return]. *)
Definition thread_alone : M pc :=
  p ← thread_step AtTest;
  p ← thread_step p;
  p ← thread_step p;
  thread_step p.

(** A schedule names, step by step, the thread that moves next. *)
Fixpoint interleave (sched : list nat) (ts : list pc) (w : World)
  : list pc * World :=
  match sched with
  | [] => (ts, w)
  | t :: sched' =>
      match ts !! t with
      | None => interleave sched' ts w
      | Some p =>
          match thread_step p w with
          | Return p' w' => interleave sched' (<[t := p']> ts) w'
          | Raise _ w' => interleave sched' ts w'
          end
      end
  end.

(** ** Summaries *)

(** What one call of [_update_flow_state] amounts to, as a case analysis on
    the world it starts in. [refresh_spec_correct] below shows that the
    method computes exactly this. *)
Definition refreshed (self : objid) (o : Watcher) (s : option AppState)
    (flow : string) (w : World) : World :=
  set_trace (trace w ++ EvFetch flow :: notice self (state o) s
                      ++ [EvDebug "Request app state"])
    (set_heap (<[self := ObjWatcher (with_state s o)]> (heap w)) w).

Definition refresh_spec (self : objid) (w : World) : outcome unit :=
  match lookup_watcher self w with
  | None => Raise (AttributeError "self") w
  | Some o =>
      match environ w !! "LIGHTNING_FLOW_NAME" with
      | None => Raise (KeyError "LIGHTNING_FLOW_NAME") w
      | Some flow =>
          let w1 := set_trace (trace w ++ [EvFetch flow]) w in
          match flows w flow with
          | FetchRaises e => Raise e w1
          | Fetched v =>
              match ClassSelector_validate (allow_None o) v with
              | inl e => Raise e w1
              | inr s => Return tt (refreshed self o s flow w)
              end
          end
      end
  end.

(** The instance as [Parameterized.__init__] leaves it. *)
Definition reset (o : Watcher) : Watcher :=
  {| name := Some "singleton"; state := None; allow_None := true;
     constant := true; _initilized := _initilized o |}.

(** The world in which the first refresh runs: parameters set up, callback
    registered. *)
Definition armed (self : objid) (o : Watcher) (w : World) : World :=
  set_callbacks (_CALLBACKS w ++ [self])
    (set_heap (<[self := ObjWatcher (reset o)]> (heap w)) w).

(** The instance once the guarded block of [__init__] is through. *)
Definition sealed (s : option AppState) : Watcher :=
  {| name := Some "singleton"; state := s; allow_None := false;
     constant := true; _initilized := true |}.

Definition initialize_spec (self : objid) (o : Watcher) (w : World)
  : outcome unit :=
  let wa := armed self o w in
  match environ w !! "LIGHTNING_FLOW_NAME" with
  | None => Raise (KeyError "LIGHTNING_FLOW_NAME") wa
  | Some flow =>
      let w1 := set_trace (trace w ++ [EvFetch flow]) wa in
      match flows w flow with
      | FetchRaises e => Raise e w1
      | Fetched v =>
          match ClassSelector_validate true v with
          | inl e => Raise e w1
          | inr s =>
              Return tt
                (set_trace (trace w ++ EvFetch flow :: notice self None s
                                     ++ [EvDebug "Request app state"])
                   (set_heap (<[self := ObjWatcher (sealed s)]> (heap w)) wa))
          end
      end
  end.

(** The exception, if any, that the closing checks of [__init__] raise. *)
Definition check_spec (o : Watcher) : option exn :=
  match state o with
  | None => Some (Exception ".state has not been set.")
  | Some a =>
      if negb (AppState_bool a) then Some (Exception ".state has not been set.")
      else match AppState_state a with
           | None => Some (Exception ".state._state has not been set.")
           | Some p =>
               if negb (Payload_bool p)
               then Some (Exception ".state._state has not been set.")
               else None
           end
  end.

(** The held state, read back as a Python value. *)
Definition pyval_of (s : option AppState) : pyval :=
  match s with
  | None => PyNone
  | Some a => PyAppState a
  end.

Definition is_fetch (e : event) : bool :=
  match e with EvFetch _ => true | _ => false end.

Definition is_change (e : event) : bool :=
  match e with EvChange _ _ _ => true | _ => false end.

(** The calls of [get_flow_state] and the change events in a trace. *)
Definition fetches (t : list event) : list event := List.filter is_fetch t.
Definition changes (t : list event) : list event := List.filter is_change t.

(** The invariant of the process: the only watcher in the heap is the one
    the class attribute points to; once its [_initilized] flag is set its
    parameter no longer admits [None]; and the class attribute and the
    registry point at watchers, so that [self] is never a dangling
    reference. *)
Definition Inv (w : World) : Prop :=
  (forall j o, lookup_watcher j w = Some o -> _instance w = Some j) /\
  (forall j o, lookup_watcher j w = Some o ->
               _initilized o = true -> allow_None o = false) /\
  (forall i, _instance w = Some i -> is_Some (lookup_watcher i w)) /\
  (forall j, j ∈ _CALLBACKS w -> is_Some (lookup_watcher j w)).

(** The instance [i] is the cached one, its guarded block is through, its
    parameter refuses [None], and it holds a snapshot. *)
Definition settled (i : objid) (w : World) : Prop :=
  _instance w = Some i /\
  exists o, lookup_watcher i w = Some o /\ _initilized o = true /\
            allow_None o = false /\ state o <> None.

(** The world a first call of [__new__] leaves. *)
Definition created (w : World) : World :=
  set_cls_instance (Some (fresh (dom (heap w))))
    (set_heap (<[fresh (dom (heap w)) := ObjWatcher blank]> (heap w)) w).


(** The object a constructor call works on, and the world [__new__] hands to
    [__init__]. *)
Definition target (w : World) : objid :=
  match _instance w with
  | Some i => i
  | None => fresh (dom (heap w))
  end.

Definition entered (w : World) : World :=
  match _instance w with
  | Some _ => w
  | None => created w
  end.

(** One round of the notifier: every registered callback is called, in the
    order of registration. *)
Definition round (w : World) : list op :=
  map Call (seq 0 (length (_CALLBACKS w))).

(** Two more facts that hold between the operations of a process: the
    parameter [state] of every watcher is constant, and a watcher whose
    [_initilized] flag is set is in the registry. *)
Definition Steady (w : World) : Prop :=
  (forall j o, lookup_watcher j w = Some o -> constant o = true) /\
  (forall j o, lookup_watcher j w = Some o ->
               _initilized o = true -> j ∈ _CALLBACKS w).

End Watcher.

Module Demo.

(** A snapshot class to run the code on: the payload is a dict from names to
    integers, and a snapshot is as true as its payload. *)
Definition dict := list (string * Z).

Record snapshot : Type := mkSnapshot { _state : option dict }.

Definition dict_bool (d : dict) : bool :=
  match d with [] => false | _ => true end.

Definition snapshot_bool (s : snapshot) : bool :=
  match _state s with Some d => dict_bool d | None => false end.

#[global] Instance snapshot_Snapshot : Snapshot snapshot dict :=
  {| AppState_bool := snapshot_bool; AppState_state := _state;
     Payload_bool := dict_bool |}.

(** The same snapshots, read as plain objects: every one of them is true,
    whatever its payload. *)
Definition plain_objects : Snapshot snapshot dict :=
  {| AppState_bool := fun _ => true; AppState_state := _state;
     Payload_bool := dict_bool |}.

Definition counter (n : Z) : snapshot := {| _state := Some [("counter", n)] |}.

(** A snapshot whose payload is the empty dict: set, but false. *)
Definition hollow : snapshot := {| _state := Some [] |}.

Definition env : gmap string string := {["LIGHTNING_FLOW_NAME" := "my_flow"]}.

Definition serve (s : snapshot) : string -> @fetch_result snapshot :=
  fun _ => Fetched (PyAppState s).

(** A process about to make its first access, the flow at [counter 1]. *)
Definition fresh_start : World := boot env (serve (counter 1)).

(** After the first constructor call. *)
Definition started : World := world_of (AppStateWatcher fresh_start).

(** The flow has moved on to [counter 2]. *)
Definition moved : World := set_flows (serve (counter 2)) started.

(** The flow now answers with the hollow snapshot, and the notifier has
    called back. *)
Definition hollowed : World :=
  world_of (_update_flow_state 0 (set_flows (serve hollow) started)).

(** A process whose environment does not name the flow. *)
Definition unnamed : World := boot ∅ (serve (counter 1)).

(** A process whose flow answers with the hollow snapshot from the start. *)
Definition hollow_start : World := boot env (serve hollow).

(** Two threads make the first access together: both test, then the first
    creates and returns, then the second creates and returns. *)
Definition race : list pc * World :=
  interleave [0; 1; 0; 0; 1; 1] [AtTest; AtTest] fresh_start.

(** A busy process: construct, allocate something else, let the notifier call
    back, construct again. *)
Definition busy : list (@op snapshot) := [Construct; Alloc; Call 0; Construct].

(** Two flows that answer differently, to tell which one was asked. *)
Definition by_name : string -> @fetch_result snapshot :=
  fun flow => if String.eqb flow "my_flow" then Fetched (PyAppState (counter 1))
              else Fetched (PyAppState (counter 7)).

(** A process on [by_name], after its first constructor call. *)
Definition named : World := (run [Construct] (boot env by_name)).2.

(** The flow has become unreachable after the first constructor call. *)
Definition cut_off : @World snapshot :=
  (run [Construct; Remote (fun _ => FetchRaises (RemoteError "unreachable"))]
     (boot env (serve (counter 1)))).2.

(** The flow answers [None] after the first constructor call. *)
Definition emptied : @World snapshot :=
  (run [Construct; Remote (fun _ => Fetched PyNone)]
     (boot env (serve (counter 1)))).2.

(** A process whose flow answers [None] from the start; the same after its
    first constructor call; and then with the flow at [counter 2]. *)
Definition none_start : @World snapshot := boot env (fun _ => Fetched PyNone).
Definition stuck : World := world_of (AppStateWatcher none_start).
Definition unstuck : World := set_flows (serve (counter 2)) stuck.

(** A process whose flow is unreachable from the start. *)
Definition unreachable_start : @World snapshot :=
  boot env (fun _ => FetchRaises (RemoteError "unreachable")).

(** A process that started without the name of the flow: the first
    constructor call failed, the name was then set, and the second
    constructor call went through. *)
Definition retried : World :=
  (run [Construct; Putenv "LIGHTNING_FLOW_NAME" "my_flow"; Construct]
     (boot ∅ (serve (counter 1)))).2.

(** A process whose flow was unreachable at the first constructor call and
    reachable at the second. *)
Definition reconnected : list result * World :=
  run [Construct; Remote (serve (counter 1)); Construct] unreachable_start.

(** A process that started without the name of the flow, so that its first
    constructor call failed; the name has been set since, and the flow
    answers [None]. *)
Definition half_built : @World snapshot :=
  (run [Construct; Putenv "LIGHTNING_FLOW_NAME" "my_flow";
        Remote (fun _ => Fetched PyNone)]
     (boot ∅ (serve (counter 1)))).2.

End Demo.

(** ** Running computations step by step *)

Section Proofs.

Context {AppState Payload : Type} {snap : Snapshot AppState Payload}.
Implicit Types (w : @World AppState) (o : @Watcher AppState).
Implicit Types (fl : string -> @fetch_result AppState) (v : @pyval AppState).


Lemma run_bind {A B} (m : M A) (k : A -> M B) w :
  (m ≫= k) w = match m w with
               | Return a w' => k a w'
               | Raise e w' => Raise e w'
               end.
Proof. reflexivity. Qed.

Lemma run_ret {A} (a : A) w : (mret a : M A) w = Return a w.
Proof. reflexivity. Qed.

Lemma run_pure {A} (a : A) w : ret a w = Return a w.
Proof. reflexivity. Qed.

Lemma run_get w : get w = Return w w.
Proof. reflexivity. Qed.

Lemma run_modify f w : modify f w = Return tt (f w).
Proof. reflexivity. Qed.

Lemma run_raise {A} e w : raise (A := A) e w = Raise e w.
Proof. reflexivity. Qed.

Ltac mred :=
  repeat first
    [ rewrite run_bind | rewrite run_get | rewrite run_modify
    | rewrite run_ret | rewrite run_pure | rewrite run_raise
    | progress cbv beta iota ].

Lemma world_of_then {A B} (m : M A) (b : B) w :
  world_of ((m ≫= fun _ => mret b) w) = world_of (m w).
Proof. rewrite run_bind. by destruct (m w). Qed.

Lemma world_of_map {A B} (m : M A) (f : A -> B) w :
  world_of ((m ≫= fun a => mret (f a)) w) = world_of (m w).
Proof. rewrite run_bind. by destruct (m w). Qed.

Lemma world_eta w :
  {| environ := environ w; flows := flows w; _CALLBACKS := _CALLBACKS w;
     _instance := _instance w; heap := heap w; trace := trace w |} = w.
Proof. by destruct w. Qed.

Lemma lookup_watcher_heap self w o :
  lookup_watcher self w = Some o <-> heap w !! self = Some (ObjWatcher o).
Proof.
  unfold lookup_watcher. destruct (heap w !! self) as [[]|]; split; congruence.
Qed.

Lemma lookup_watcher_insert self o h w :
  lookup_watcher self (set_heap (<[self := ObjWatcher o]> h) w) = Some o.
Proof. unfold lookup_watcher, set_heap; simpl. by rewrite lookup_insert_eq. Qed.

Lemma read_self_run self w o :
  lookup_watcher self w = Some o -> read_self self w = Return o w.
Proof. intros H. unfold read_self. by rewrite H. Qed.

Lemma read_self_fail self w :
  lookup_watcher self w = None ->
  read_self self w = Raise (AttributeError "self") w.
Proof. intros H. unfold read_self. by rewrite H. Qed.

Lemma write_self_run self f w o :
  lookup_watcher self w = Some o ->
  write_self self f w
  = Return tt (set_heap (<[self := ObjWatcher (f o)]> (heap w)) w).
Proof.
  intros H. unfold write_self. rewrite run_bind, (read_self_run _ _ _ H).
  reflexivity.
Qed.

Lemma with_constant_restore o s :
  with_constant (constant o) (with_state s (with_constant false o))
  = with_state s o.
Proof. by destruct o. Qed.

Lemma with_constant_undo o :
  with_constant (constant o) (with_constant false o) = o.
Proof. by destruct o. Qed.

Lemma reset_fields o :
  with_name (Some "singleton")
    (with_state None (with_allow_None true (with_constant true o)))
  = reset o.
Proof. reflexivity. Qed.

(** The refresh method computes [refresh_spec]. *)
Lemma refresh_spec_correct self w :
  _update_flow_state self w = refresh_spec self w.
Proof.
  unfold _update_flow_state, refresh_spec, edit_constant.
  destruct (lookup_watcher self w) as [o|] eqn:Hl.
  2: { mred. by rewrite (read_self_fail _ _ Hl). }
  mred. rewrite (read_self_run _ _ _ Hl). mred.
  rewrite (write_self_run _ _ _ _ Hl). mred.
  set (w1 := set_heap _ w).
  assert (Hl1 : lookup_watcher self w1 = Some (with_constant false o))
    by apply lookup_watcher_insert.
  unfold try_finally, _get_flow_state, os_environ_getitem. mred.
  change (environ w1) with (environ w).
  destruct (environ w !! "LIGHTNING_FLOW_NAME") as [flow|] eqn:He; mred.
  - unfold get_flow_state, log. mred.
    set (w2 := set_trace _ w1). change (flows w2) with (flows w).
    assert (Hl2 : lookup_watcher self w2 = Some (with_constant false o))
      by apply lookup_watcher_insert.
    destruct (flows w flow) as [v|e] eqn:Hf; mred.
    + unfold setattr_state. mred. rewrite (read_self_run _ _ _ Hl2). mred.
      cbn [constant allow_None state with_constant]. mred.
      destruct (ClassSelector_validate (allow_None o) v) as [e|s] eqn:Hv; mred.
      * rewrite (write_self_run _ _ _ _ Hl2).
        subst w2 w1. unfold set_trace, set_heap; simpl.
        rewrite insert_insert_eq, with_constant_undo.
        rewrite insert_id by (by apply lookup_watcher_heap).
        reflexivity.
      * rewrite (write_self_run _ _ _ _ Hl2). mred.
        set (w3 := set_heap _ w2). unfold log. mred.
        set (w4 := set_trace _ w3).
        assert (Hl4 : lookup_watcher self w4
                      = Some (with_state s (with_constant false o)))
          by apply lookup_watcher_insert.
        rewrite (write_self_run _ _ _ _ Hl4). mred.
        unfold logger_debug, log, refreshed. mred.
        subst w4 w3 w2 w1. unfold set_trace, set_heap; simpl.
        rewrite !insert_insert_eq, with_constant_restore.
        by rewrite <- !app_assoc.
    + rewrite (write_self_run _ _ _ _ Hl2).
      subst w2 w1. unfold set_trace, set_heap; simpl.
      rewrite insert_insert_eq, with_constant_undo.
      rewrite insert_id by (by apply lookup_watcher_heap).
      reflexivity.
  - rewrite (write_self_run _ _ _ _ Hl1).
    subst w1. unfold set_heap; simpl.
    rewrite insert_insert_eq, with_constant_undo.
    rewrite insert_id by (by apply lookup_watcher_heap).
    by rewrite world_eta.
Qed.

Lemma initialize_spec_correct self w o :
  lookup_watcher self w = Some o ->
  _initilized o = false ->
  initialize self w = initialize_spec self o w.
Proof.
  intros Hl Hi. unfold initialize, Parameterized__init__, _start_watching,
    watch_app_state.
  mred. rewrite (write_self_run _ _ _ _ Hl). mred. rewrite reset_fields.
  change (set_callbacks (_ ++ [self]) _) with (armed self o w).
  assert (Ha : lookup_watcher self (armed self o w) = Some (reset o))
    by apply lookup_watcher_insert.
  rewrite refresh_spec_correct. unfold refresh_spec, initialize_spec.
  rewrite Ha. change (environ (armed self o w)) with (environ w).
  destruct (environ w !! "LIGHTNING_FLOW_NAME") as [flow|]; [|done].
  change (flows (armed self o w)) with (flows w).
  destruct (flows w flow) as [v|e]; [|done].
  change (allow_None (reset o)) with true.
  destruct (ClassSelector_validate true v) as [e|s]; [done|].
  mred.
  assert (Hr : lookup_watcher self (refreshed self (reset o) s flow (armed self o w))
               = Some (with_state s (reset o)))
    by apply lookup_watcher_insert.
  rewrite (write_self_run _ _ _ _ Hr). mred.
  erewrite write_self_run by apply lookup_watcher_insert.
  unfold refreshed, armed, set_trace, set_heap, set_callbacks; simpl.
  rewrite !insert_insert_eq. unfold sealed, reset. simpl. by rewrite Hi.
Qed.

Lemma check_state_run self w o :
  lookup_watcher self w = Some o ->
  check_state self w = match check_spec o with
                       | Some e => Raise e w
                       | None => Return tt w
                       end.
Proof.
  intros Hl. unfold check_state, check_spec. mred.
  rewrite (read_self_run _ _ _ Hl). mred.
  destruct (state o) as [a|]; simpl; [|done].
  destruct (AppState_bool a); simpl; [|done].
  destruct (AppState_state a) as [p|]; simpl; [|done].
  by destruct (Payload_bool p).
Qed.

Lemma init_run self w o :
  lookup_watcher self w = Some o ->
  __init__ self w
  = if _initilized o then check_state self w
    else match initialize self w with
         | Return _ w1 => check_state self w1
         | Raise e w1 => Raise e w1
         end.
Proof.
  intros Hl. unfold __init__, setup. mred. rewrite (read_self_run _ _ _ Hl). mred.
  destruct (_initilized o); simpl; mred; reflexivity.
Qed.

Lemma setup_run self w o :
  lookup_watcher self w = Some o ->
  setup self w = if _initilized o then Return tt w else initialize self w.
Proof.
  intros Hl. unfold setup. mred. rewrite (read_self_run _ _ _ Hl). mred.
  by destruct (_initilized o).
Qed.

Lemma new_cached w i : _instance w = Some i -> __new__ w = Return i w.
Proof.
  intros Hi. unfold __new__. mred. rewrite Hi.
  rewrite bool_decide_true by eauto. simpl. mred. by rewrite Hi.
Qed.

Lemma new_first w :
  _instance w = None ->
  __new__ w = Return (fresh (dom (heap w))) (created w).
Proof.
  intros Hi. unfold __new__. mred. rewrite Hi.
  rewrite bool_decide_false by (by intros [? ?]). simpl.
  unfold object__new__. mred. reflexivity.
Qed.

(** *** What one operation can change *)

Lemma validate_inr allow (v : @pyval AppState) s :
  ClassSelector_validate allow v = inr s ->
  pyval_of s = v /\ (allow = false -> s <> None).
Proof.
  destruct v as [|a|c]; simpl; [destruct allow| |]; intros [= <-]; done.
Qed.

Lemma lookup_watcher_same_heap j w w' :
  heap w' = heap w -> lookup_watcher j w' = lookup_watcher j w.
Proof. unfold lookup_watcher. by intros ->. Qed.

Lemma lookup_watcher_put j self o' w w' :
  heap w' = <[self := ObjWatcher o']> (heap w) ->
  lookup_watcher j w' = if decide (self = j) then Some o' else lookup_watcher j w.
Proof.
  unfold lookup_watcher. intros ->. rewrite lookup_insert.
  by destruct (decide (self = j)).
Qed.

Lemma lookup_watcher_dom self w o :
  lookup_watcher self w = Some o -> self ∈ dom (heap w).
Proof. intros Hl%lookup_watcher_heap. apply elem_of_dom. eauto. Qed.

Lemma refresh_effect self w :
  let w' := world_of (_update_flow_state self w) in
  _instance w' = _instance w /\ _CALLBACKS w' = _CALLBACKS w /\
  (heap w' = heap w \/
   exists o s, lookup_watcher self w = Some o /\
               (allow_None o = false -> s <> None) /\
               heap w' = <[self := ObjWatcher (with_state s o)]> (heap w)).
Proof.
  rewrite refresh_spec_correct. unfold refresh_spec.
  destruct (lookup_watcher self w) as [o|] eqn:Hl; [|simpl; auto].
  destruct (environ w !! "LIGHTNING_FLOW_NAME") as [flow|]; [|simpl; auto].
  destruct (flows w flow) as [v|e]; [|simpl; auto].
  destruct (ClassSelector_validate (allow_None o) v) as [e|s] eqn:Hv;
    [simpl; auto|].
  simpl. repeat split; try done. right. exists o, s.
  repeat split; try done. by apply validate_inr in Hv as [_ ?].
Qed.

Lemma init_effect self w :
  let w' := world_of (__init__ self w) in
  _instance w' = _instance w /\
  ((w' = w /\ forall o, lookup_watcher self w = Some o -> _initilized o = true) \/
   exists o o', lookup_watcher self w = Some o /\ _initilized o = false /\
                (o' = reset o \/ exists s, o' = sealed s) /\
                heap w' = <[self := ObjWatcher o']> (heap w) /\
                _CALLBACKS w' = (_CALLBACKS w ++ [self])%list).
Proof.
  destruct (lookup_watcher self w) as [o|] eqn:Hl.
  2: { unfold __init__, setup. mred. rewrite (read_self_fail _ _ Hl). simpl.
       split; [done|]. left. by split. }
  rewrite (init_run _ _ _ Hl). destruct (_initilized o) eqn:Hi.
  { rewrite (check_state_run _ _ _ Hl).
    destruct (check_spec o); simpl; (split; [done|]); left;
      (split; [done|]); by intros ? [= <-]. }
  rewrite (initialize_spec_correct _ _ _ Hl Hi). unfold initialize_spec.
  destruct (environ w !! "LIGHTNING_FLOW_NAME") as [flow|].
  2: { simpl. split; [done|]. right. exists o, (reset o). eauto 10. }
  destruct (flows w flow) as [v|e].
  2: { simpl. split; [done|]. right. exists o, (reset o). eauto 10. }
  destruct (ClassSelector_validate true v) as [e|s].
  { simpl. split; [done|]. right. exists o, (reset o). eauto 10. }
  set (w1 := set_trace _ _).
  assert (Hl1 : lookup_watcher self w1 = Some (sealed s))
    by apply lookup_watcher_insert.
  rewrite (check_state_run _ _ _ Hl1).
  assert (Hw : world_of (match check_spec (sealed s) with
                         | Some e => Raise e w1
                         | None => Return tt w1
                         end) = w1) by (by destruct (check_spec _)).
  rewrite Hw. split; [done|]. right. exists o, (sealed s). eauto 10.
Qed.

Lemma construct_run w :
  AppStateWatcher w = match __init__ (target w) (entered w) with
                      | Return _ w' => Return (target w) w'
                      | Raise e w' => Raise e w'
                      end.
Proof.
  unfold AppStateWatcher, target, entered. mred.
  destruct (_instance w) as [i|] eqn:Hi.
  - rewrite (new_cached _ _ Hi). mred. by destruct (__init__ i w).
  - rewrite (new_first _ Hi). mred. by destruct (__init__ _ (created w)).
Qed.

Lemma entered_instance w : _instance (entered w) = Some (target w).
Proof. unfold entered, target. by destruct (_instance w) eqn:Hi. Qed.

Lemma construct_world w :
  world_of (AppStateWatcher w) = world_of (__init__ (target w) (entered w)).
Proof. rewrite construct_run. by destruct (__init__ _ _). Qed.

Lemma construct_returns w a w' :
  AppStateWatcher w = Return a w' ->
  a = target w /\ __init__ (target w) (entered w) = Return tt w'.
Proof.
  rewrite construct_run.
  destruct (__init__ _ _) as [[] w1|]; [|done]. by intros [= <- <-].
Qed.

Lemma init_registers self w o :
  lookup_watcher self w = Some o ->
  _initilized o = false ->
  _CALLBACKS (world_of (__init__ self w)) = (_CALLBACKS w ++ [self])%list.
Proof.
  intros Hl Hf. destruct (init_effect self w) as [_ [[_ Hc]|Hc]].
  - apply Hc in Hl. congruence.
  - by destruct Hc as (? & ? & _ & _ & _ & _ & ->).
Qed.

(** *** The invariant *)

Lemma Inv_boot env fl : Inv (boot env fl).
Proof.
  split_and!.
  - intros j o Hl. unfold lookup_watcher in Hl. simpl in Hl.
    by rewrite lookup_empty in Hl.
  - intros j o Hl. unfold lookup_watcher in Hl. simpl in Hl.
    by rewrite lookup_empty in Hl.
  - done.
  - intros j Hj. simpl in Hj. by apply not_elem_of_nil in Hj.
Qed.

Lemma is_Some_put j self o' w w' :
  heap w' = <[self := ObjWatcher o']> (heap w) ->
  is_Some (lookup_watcher j w) -> is_Some (lookup_watcher j w').
Proof.
  intros Hh Hj. rewrite (lookup_watcher_put _ _ _ _ _ Hh).
  destruct (decide (self = j)); eauto.
Qed.

Lemma Inv_entered w : Inv w -> Inv (entered w).
Proof.
  intros HI. pose proof HI as (I1 & I2 & I3 & I4).
  unfold entered. destruct (_instance w) eqn:Hi; [done|].
  assert (Hno : forall j, lookup_watcher j w = None).
  { intros j. destruct (lookup_watcher j w) eqn:Hl; [|done].
    apply I1 in Hl. congruence. }
  assert (Hput : forall j, lookup_watcher j (created w)
                 = if decide (fresh (dom (heap w)) = j) then Some blank
                   else lookup_watcher j w)
    by (intros j; by apply lookup_watcher_put).
  split_and!.
  - intros j o. rewrite Hput. destruct (decide _) as [<-|]; [done|].
    by rewrite Hno.
  - intros j o. rewrite Hput. destruct (decide _) as [<-|].
    + by intros [= <-].
    + by rewrite Hno.
  - intros i [= <-]. rewrite Hput. rewrite decide_True by done. eauto.
  - intros j Hj. apply I4 in Hj. rewrite Hno in Hj. by destruct Hj.
Qed.

Lemma Inv_init self w :
  _instance w = Some self -> Inv w -> Inv (world_of (__init__ self w)).
Proof.
  intros Hs HI. pose proof HI as (I1 & I2 & I3 & I4).
  destruct (init_effect self w) as [Hi [[-> _]|Hc]]; [done|].
  destruct Hc as (o & o' & Hl & Hf & Ho' & Hh & Hcb).
  split_and!.
  - intros j x. rewrite (lookup_watcher_put _ _ _ _ _ Hh), Hi.
    destruct (decide (self = j)) as [<-|]; eauto.
  - intros j x. rewrite (lookup_watcher_put _ _ _ _ _ Hh).
    destruct (decide (self = j)) as [<-|]; [|eauto].
    intros [= <-]. destruct Ho' as [->|[s ->]]; simpl; [congruence|done].
  - intros i. rewrite Hi. intros Hinst. eapply is_Some_put; eauto.
  - intros j. rewrite Hcb. intros [Hj|Hj]%elem_of_app.
    + eapply is_Some_put; eauto.
    + apply list_elem_of_singleton in Hj as ->.
      rewrite (lookup_watcher_put _ _ _ _ _ Hh), decide_True by done. eauto.
Qed.

Lemma Inv_refresh self w : Inv w -> Inv (world_of (_update_flow_state self w)).
Proof.
  intros (I1 & I2 & I3 & I4).
  destruct (refresh_effect self w) as (Hi & Hcb & [Hh|Hc]).
  - split_and!.
    + intros j x. rewrite (lookup_watcher_same_heap _ _ _ Hh), Hi. eauto.
    + intros j x. rewrite (lookup_watcher_same_heap _ _ _ Hh). eauto.
    + intros i. rewrite (lookup_watcher_same_heap _ _ _ Hh), Hi. eauto.
    + intros j. rewrite (lookup_watcher_same_heap _ _ _ Hh), Hcb. eauto.
  - destruct Hc as (o & s & Hl & _ & Hh). split_and!.
    + intros j x. rewrite (lookup_watcher_put _ _ _ _ _ Hh), Hi.
      destruct (decide (self = j)) as [<-|]; eauto.
    + intros j x. rewrite (lookup_watcher_put _ _ _ _ _ Hh).
      destruct (decide (self = j)) as [<-|]; [|eauto].
      intros [= <-]. simpl. eauto.
    + intros i. rewrite Hi. intros Hinst. eapply is_Some_put; eauto.
    + intros j. rewrite Hcb. intros Hj. eapply is_Some_put; eauto.
Qed.

Lemma Inv_alloc w :
  Inv w -> Inv (set_heap (<[fresh (dom (heap w)) := ObjOther]> (heap w)) w).
Proof.
  intros (I1 & I2 & I3 & I4).
  assert (Hsame : forall j,
            lookup_watcher j (set_heap (<[fresh (dom (heap w)) := ObjOther]> (heap w)) w)
            = if decide (fresh (dom (heap w)) = j) then None
              else lookup_watcher j w).
  { intros j. unfold lookup_watcher; simpl. rewrite lookup_insert.
    by destruct (decide _). }
  assert (Hold : forall j, is_Some (lookup_watcher j w) ->
                           fresh (dom (heap w)) <> j).
  { intros j [o Hj] <-. apply lookup_watcher_dom in Hj.
    by apply is_fresh in Hj. }
  split_and!.
  - intros j x. rewrite Hsame. destruct (decide _); [done|]. apply I1.
  - intros j x. rewrite Hsame. destruct (decide _); [done|]. apply I2.
  - intros i Hi. rewrite Hsame. apply I3 in Hi.
    by rewrite decide_False by (by apply Hold).
  - intros j Hj. rewrite Hsame. apply I4 in Hj.
    by rewrite decide_False by (by apply Hold).
Qed.

Lemma Inv_perform a w : Inv w -> Inv (world_of (perform a w)).
Proof.
  intros HI. destruct a as [|k|key value|key|f|]; simpl.
  - unfold perform. rewrite world_of_map, construct_world.
    apply Inv_init; auto using entered_instance, Inv_entered.
  - rewrite run_bind, run_get. cbv beta iota.
    destruct (_CALLBACKS w !! k) as [self|]; [|done].
    rewrite world_of_then. by apply Inv_refresh.
  - done.
  - done.
  - done.
  - mred. simpl. by apply Inv_alloc.
Qed.

Lemma Inv_run ops : forall w, Inv w -> Inv (run ops w).2.
Proof.
  induction ops as [|a ops IH]; intros w HI; [done|]. simpl.
  apply IH. by apply Inv_perform.
Qed.

Lemma reachable_Inv w : reachable w -> Inv w.
Proof. intros (env & fl & ops & <-). apply Inv_run, Inv_boot. Qed.

(** *** One instance *)

Lemma instance_kept a w i :
  _instance w = Some i -> _instance (world_of (perform a w)) = Some i.
Proof.
  intros Hi. destruct a as [|k|key value|key|f|]; try done.
  - unfold perform. rewrite world_of_map, construct_world.
    destruct (init_effect (target w) (entered w)) as [-> _].
    unfold entered. by rewrite Hi.
  - unfold perform. rewrite run_bind, run_get. cbv beta iota.
    destruct (_CALLBACKS w !! k) as [self|]; [|done].
    rewrite world_of_then. by destruct (refresh_effect self w) as [-> _].
Qed.

Lemma instance_kept_run ops : forall w i,
  _instance w = Some i -> _instance (run ops w).2 = Some i.
Proof.
  induction ops as [|a ops IH]; intros w i Hi; [done|]. simpl.
  by apply IH, instance_kept.
Qed.

Lemma returned_is_instance a w x :
  result_of (perform a w) = Returned (Some x) ->
  _instance (world_of (perform a w)) = Some x.
Proof.
  destruct a as [|k|key value|key|f|]; try done.
  - unfold perform. rewrite run_bind.
    destruct (AppStateWatcher w) as [i w'|e w'] eqn:Hr; [|done].
    rewrite run_ret. simpl. intros [= <-].
    apply construct_returns in Hr as [-> Hr].
    destruct (init_effect (target w) (entered w)) as [Hi _].
    rewrite Hr in Hi. simpl in Hi. by rewrite Hi, entered_instance.
  - unfold perform. rewrite run_bind, run_get. cbv beta iota.
    destruct (_CALLBACKS w !! k) as [self|]; [|done].
    rewrite run_bind. by destruct (_update_flow_state self w).
Qed.

Lemma returned_is_final ops : forall w x,
  In (Returned (Some x)) (run ops w).1 -> _instance (run ops w).2 = Some x.
Proof.
  induction ops as [|a ops IH]; intros w x; simpl; [done|].
  intros [Hx|Hx]; [|by apply IH].
  by apply instance_kept_run, returned_is_instance.
Qed.

Lemma is_Some_entered i w :
  is_Some (lookup_watcher i w) -> is_Some (lookup_watcher i (entered w)).
Proof.
  intros Hi. unfold entered. destruct (_instance w); [done|].
  by eapply (is_Some_put i (fresh (dom (heap w))) blank w).
Qed.

Lemma is_Some_init i self w :
  is_Some (lookup_watcher i w) ->
  is_Some (lookup_watcher i (world_of (__init__ self w))).
Proof.
  intros Hi. destruct (init_effect self w) as [_ [[-> _]|Hc]]; [done|].
  destruct Hc as (o & o' & _ & _ & _ & Hh & _). by eapply is_Some_put.
Qed.

Lemma watcher_kept a w i :
  is_Some (lookup_watcher i w) ->
  is_Some (lookup_watcher i (world_of (perform a w))).
Proof.
  intros Hi. destruct a as [|k|key value|key|f|]; try done.
  - unfold perform. rewrite world_of_map, construct_world.
    by apply is_Some_init, is_Some_entered.
  - unfold perform. rewrite run_bind, run_get. cbv beta iota.
    destruct (_CALLBACKS w !! k) as [self|]; [|done].
    rewrite world_of_then.
    destruct (refresh_effect self w) as (_ & _ & [Hh|Hc]).
    + by rewrite (lookup_watcher_same_heap _ _ _ Hh).
    + destruct Hc as (o & s & _ & _ & Hh). by eapply is_Some_put.
  - unfold perform. mred. simpl. unfold lookup_watcher. simpl.
    rewrite lookup_insert_ne; [done|].
    intros <-. destruct Hi as [o Hi]. apply lookup_watcher_dom in Hi.
    by apply is_fresh in Hi.
Qed.

Lemma watcher_kept_run ops : forall w i,
  is_Some (lookup_watcher i w) -> is_Some (lookup_watcher i (run ops w).2).
Proof.
  induction ops as [|a ops IH]; intros w i Hi; [done|]. simpl.
  by apply IH, watcher_kept.
Qed.

Lemma construct_returns_watcher w a w1 :
  AppStateWatcher w = Return a w1 ->
  a = target w /\ _instance w1 = Some a /\ is_Some (lookup_watcher a w1).
Proof.
  intros Hr. apply construct_returns in Hr as [-> Hr]. split; [done|].
  destruct (init_effect (target w) (entered w)) as [Hi _].
  rewrite Hr in Hi. simpl in Hi. split; [by rewrite Hi, entered_instance|].
  destruct (lookup_watcher (target w) (entered w)) as [o|] eqn:Hl.
  - pose proof (is_Some_init (target w) (target w) (entered w)) as Hk.
    rewrite Hr in Hk. apply Hk. by rewrite Hl.
  - unfold __init__, setup in Hr. revert Hr. mred.
    by rewrite (read_self_fail _ _ Hl).
Qed.

Lemma returned_is_watcher ops : forall w x,
  In (Returned (Some x)) (run ops w).1 ->
  is_Some (lookup_watcher x (run ops w).2).
Proof.
  induction ops as [|a ops IH]; intros w x; simpl; [done|].
  intros [Hx|Hx]; [|by apply IH].
  apply watcher_kept_run. destruct a as [|k|key value|key|f|]; try done.
  - revert Hx. unfold perform. rewrite run_bind.
    destruct (AppStateWatcher w) as [i w'|e w'] eqn:Hr; [|done].
    rewrite run_ret. simpl. intros [= <-].
    by apply construct_returns_watcher in Hr as (_ & _ & ?).
  - revert Hx. unfold perform. rewrite run_bind, run_get. cbv beta iota.
    destruct (_CALLBACKS w !! k) as [self|]; [|done].
    rewrite run_bind. by destruct (_update_flow_state self w).
Qed.

Lemma construct_first_world w :
  _instance w = None ->
  (fresh (dom (heap w)) ∉ dom (heap w)) /\
  _instance (world_of (AppStateWatcher w)) = Some (fresh (dom (heap w))) /\
  is_Some (lookup_watcher (fresh (dom (heap w))) (world_of (AppStateWatcher w))).
Proof.
  intros Hi. split; [apply is_fresh|].
  rewrite construct_world. unfold target, entered. rewrite Hi. split.
  - by destruct (init_effect (fresh (dom (heap w))) (created w)) as [-> _].
  - apply is_Some_init.
    assert (Hl : lookup_watcher (fresh (dom (heap w))) (created w) = Some blank)
      by apply lookup_watcher_insert.
    rewrite Hl. eauto.
Qed.

Lemma construct_later_world w j :
  _instance w = Some j ->
  _instance (world_of (AppStateWatcher w)) = Some j /\
  dom (heap (world_of (AppStateWatcher w))) = dom (heap w).
Proof.
  intros Hi. rewrite construct_world. unfold target, entered. rewrite Hi.
  destruct (init_effect j w) as [-> [[-> _]|Hc]]; [done|].
  destruct Hc as (o & o' & Hl & _ & _ & -> & _). split; [done|].
  apply dom_insert_lookup_L. apply lookup_watcher_heap in Hl. eauto.
Qed.

(** C2: in one process, any two constructor calls that return hand back the
    same object, which is the watcher the class attribute holds. The first
    constructor call builds that object at a fresh address and stores it in
    the class attribute, also when its initialization then raises; every
    later constructor call returns what is stored there and allocates
    nothing. Underneath, the first call of [__new__] allocates and stores,
    and every later call returns what is stored. *)
Theorem singleton_identity w ops (m n : nat) a b :
  (run ops w).1 !! m = Some (Returned (Some a)) ->
  (run ops w).1 !! n = Some (Returned (Some b)) ->
  a = b /\
  _instance (run ops w).2 = Some a /\
  is_Some (lookup_watcher a (run ops w).2) /\
  (forall w0, _instance w0 = None ->
     (fresh (dom (heap w0)) ∉ dom (heap w0)) /\
     _instance (world_of (AppStateWatcher w0)) = Some (fresh (dom (heap w0))) /\
     is_Some (lookup_watcher (fresh (dom (heap w0)))
                (world_of (AppStateWatcher w0))) /\
     forall i w1, AppStateWatcher w0 = Return i w1 ->
                  i = fresh (dom (heap w0))) /\
  (forall w0 j, _instance w0 = Some j ->
     _instance (world_of (AppStateWatcher w0)) = Some j /\
     dom (heap (world_of (AppStateWatcher w0))) = dom (heap w0) /\
     forall i w1, AppStateWatcher w0 = Return i w1 -> i = j) /\
  (forall w0, _instance w0 = None ->
     __new__ w0 = Return (fresh (dom (heap w0))) (created w0)) /\
  (forall w0 i, _instance w0 = Some i -> __new__ w0 = Return i w0).
Proof.
  intros Ha Hb.
  pose proof Ha as Hw.
  apply list_elem_of_lookup_2, list_elem_of_In, returned_is_watcher in Hw.
  apply list_elem_of_lookup_2, list_elem_of_In, returned_is_final in Ha.
  apply list_elem_of_lookup_2, list_elem_of_In, returned_is_final in Hb.
  split_and!; [congruence|done|done| | |apply new_first|apply new_cached].
  - intros w0 Hi.
    destruct (construct_first_world w0 Hi) as (Hfr & Hinst & Hl).
    split_and!; [done|done|done|].
    intros i w1 Hr. apply construct_returns_watcher in Hr as [-> _].
    unfold target. by rewrite Hi.
  - intros w0 j Hi. destruct (construct_later_world w0 j Hi) as [Hinst Hd].
    split_and!; [done|done|].
    intros i w1 Hr. apply construct_returns_watcher in Hr as [-> _].
    unfold target. by rewrite Hi.
Qed.

(** *** Once the flag is set *)

Lemma perform_ready a self w o :
  _instance w = Some self ->
  lookup_watcher self w = Some o ->
  _initilized o = true ->
  let w' := world_of (perform a w) in
  _instance w' = Some self /\ _CALLBACKS w' = _CALLBACKS w /\
  exists o', lookup_watcher self w' = Some o' /\
    (o' = o \/ exists s, o' = with_state s o /\ (allow_None o = false -> s <> None)).
Proof.
  intros Hs Hl Hf. destruct a as [|k|key value|key|f|]; simpl.
  - unfold perform. rewrite world_of_map, construct_world.
    unfold target, entered. rewrite Hs, (init_run _ _ _ Hl), Hf.
    rewrite (check_state_run _ _ _ Hl). destruct (check_spec o); simpl; eauto 10.
  - rewrite run_bind, run_get. cbv beta iota.
    destruct (_CALLBACKS w !! k) as [self'|]; [|simpl; eauto 10].
    rewrite world_of_then.
    destruct (refresh_effect self' w) as (Hi & Hc & Hh).
    rewrite Hi, Hc. repeat split; try done.
    destruct Hh as [Hh|(o0 & s & Hl0 & Hs0 & Hh)].
    + exists o. rewrite (lookup_watcher_same_heap _ _ _ Hh). auto.
    + rewrite (lookup_watcher_put _ _ _ _ _ Hh).
      destruct (decide (self' = self)) as [->|]; [|eauto].
      rewrite Hl in Hl0. injection Hl0 as <-. eauto 10.
  - eauto 10.
  - eauto 10.
  - eauto 10.
  - mred. simpl. repeat split; try done. exists o. split; [|by left].
    unfold lookup_watcher; simpl. rewrite lookup_insert_ne.
    + by apply lookup_watcher_heap in Hl as ->.
    + intros Heq. apply lookup_watcher_dom in Hl. rewrite <- Heq in Hl.
      by apply is_fresh in Hl.
Qed.

Lemma run_ready ops : forall self w o,
  _instance w = Some self ->
  lookup_watcher self w = Some o ->
  _initilized o = true ->
  let w' := (run ops w).2 in
  _instance w' = Some self /\ _CALLBACKS w' = _CALLBACKS w /\
  exists o', lookup_watcher self w' = Some o' /\ _initilized o' = true /\
    allow_None o' = allow_None o /\
    (allow_None o = false -> state o <> None -> state o' <> None).
Proof.
  induction ops as [|a ops IH]; intros self w o Hs Hl Hf; simpl.
  { eauto 10. }
  destruct (perform_ready a self w o Hs Hl Hf) as (Hs1 & Hc1 & o1 & Hl1 & Ho1).
  assert (Hf1 : _initilized o1 = true)
    by (by destruct Ho1 as [->|(s & -> & _)]).
  destruct (IH self _ o1 Hs1 Hl1 Hf1) as (Hs2 & Hc2 & o2 & Hl2 & Hf2 & Ha2 & Hn2).
  split; [done|]. split; [congruence|]. exists o2. repeat split; try done.
  - rewrite Ha2. by destruct Ho1 as [->|(s & -> & _)].
  - intros Ha Hn. apply Hn2.
    + by destruct Ho1 as [->|(s & -> & _)].
    + destruct Ho1 as [->|(s & -> & Hsn)]; [done|]. simpl. by apply Hsn.
Qed.

Lemma check_spec_None o : check_spec o = None -> state o <> None.
Proof. unfold check_spec. by destruct (state o). Qed.

Lemma construct_settles w i w1 :
  Inv w -> AppStateWatcher w = Return i w1 -> settled i w1.
Proof.
  intros HI Hr. apply construct_returns in Hr as [-> Hr].
  pose proof (Inv_entered _ HI) as (_ & I2 & _).
  pose proof (entered_instance w) as Hs.
  set (self := target w) in *. set (w0 := entered w) in *.
  destruct (lookup_watcher self w0) as [o|] eqn:Hl.
  2: { unfold __init__, setup in Hr. revert Hr. mred.
       by rewrite (read_self_fail _ _ Hl). }
  rewrite (init_run _ _ _ Hl) in Hr. destruct (_initilized o) eqn:Hf.
  - rewrite (check_state_run _ _ _ Hl) in Hr.
    destruct (check_spec o) eqn:Hc; [done|]. injection Hr as <-.
    split; [done|]. exists o. repeat split; eauto using check_spec_None.
  - rewrite (initialize_spec_correct _ _ _ Hl Hf) in Hr.
    unfold initialize_spec in Hr.
    destruct (environ w0 !! "LIGHTNING_FLOW_NAME") as [flow|]; [|done].
    destruct (flows w0 flow) as [v|e]; [|done].
    destruct (ClassSelector_validate true v) as [e|s]; [done|].
    erewrite check_state_run in Hr by apply lookup_watcher_insert.
    destruct (check_spec (sealed s)) eqn:Hc; [done|]. injection Hr as <-.
    split; [done|]. exists (sealed s).
    split; [apply lookup_watcher_insert|].
    repeat split; try done. by apply check_spec_None in Hc.
Qed.

(** C3: once a constructor call has returned, the held [state] is not
    [None], and stays so through whatever the process does next: further
    constructor calls, refreshes by the notifier, changes of the environment
    and of the remote flows. *)
Theorem state_never_null w i w1 :
  reachable w ->
  AppStateWatcher w = Return i w1 ->
  forall ops, exists o,
    lookup_watcher i (run ops w1).2 = Some o /\ state o <> None.
Proof.
  intros Hw Hr ops.
  destruct (construct_settles _ _ _ (reachable_Inv _ Hw) Hr)
    as (Hs & o & Hl & Hf & Ha & Hn).
  destruct (run_ready ops i w1 o Hs Hl Hf) as (_ & _ & o' & Hl' & _ & _ & Hn').
  exists o'. auto.
Qed.

Lemma construct_first w :
  _instance w = None ->
  let self := fresh (dom (heap w)) in
  AppStateWatcher w
  = match initialize_spec self blank (created w) with
    | Return _ w1 =>
        match check_state self w1 with
        | Return _ w2 => Return self w2
        | Raise e w2 => Raise e w2
        end
    | Raise e w1 => Raise e w1
    end.
Proof.
  intros Hi self. rewrite construct_run. unfold target, entered. rewrite Hi.
  fold self.
  assert (Hl : lookup_watcher self (created w) = Some blank)
    by apply lookup_watcher_insert.
  rewrite (init_run _ _ _ Hl). simpl.
  rewrite (initialize_spec_correct _ _ _ Hl) by done.
  by destruct (initialize_spec self blank (created w)).
Qed.

(** X14: the first constructor call registers the refresh callback and runs
    the refresh once: whether or not it goes through, the registry has gained
    exactly this callback, and when the guarded block completes the trace has
    gained exactly one fetch, the notification of the assignment and one
    debug line. A constructor call on an instance whose flag is set changes
    nothing at all, and through whatever the process does afterwards the
    registry stays as it is and the flag stays set. So in a process whose
    first construction gets through the guarded block, the callback is
    registered once and for all. *)
Theorem initialization_once :
  (forall w, _instance w = None ->
     let self := fresh (dom (heap w)) in
     let w' := world_of (AppStateWatcher w) in
     _CALLBACKS w' = (_CALLBACKS w ++ [self])%list /\
     ((lookup_watcher self w' = Some (reset blank) /\ returns (AppStateWatcher w) = false /\
       (trace w' = trace w \/ exists flow, trace w' = (trace w ++ [EvFetch flow])%list)) \/
      (exists flow s,
         lookup_watcher self w' = Some (sealed s) /\
         trace w' = (trace w ++ EvFetch flow :: notice self None s
                             ++ [EvDebug "Request app state"])%list))) /\
  (forall w self o,
     _instance w = Some self -> lookup_watcher self w = Some o ->
     _initilized o = true ->
     world_of (AppStateWatcher w) = w /\
     forall ops,
       _CALLBACKS (run ops w).2 = _CALLBACKS w /\
       exists o', lookup_watcher self (run ops w).2 = Some o' /\
                  _initilized o' = true) /\
  (forall w s,
     _instance w = None ->
     let self := fresh (dom (heap w)) in
     let w' := world_of (AppStateWatcher w) in
     lookup_watcher self w' = Some (sealed s) ->
     forall ops, _CALLBACKS (run ops w').2 = (_CALLBACKS w ++ [self])%list).
Proof.
  assert (Hlater : forall w self o,
            _instance w = Some self -> lookup_watcher self w = Some o ->
            _initilized o = true ->
            forall ops,
              _CALLBACKS (run ops w).2 = _CALLBACKS w /\
              exists o', lookup_watcher self (run ops w).2 = Some o' /\
                         _initilized o' = true).
  { intros w self o Hs Hl Hf ops.
    destruct (run_ready ops self w o Hs Hl Hf) as (_ & Hc & o' & Hl' & Hf' & _).
    eauto. }
  split; [|split].
  3: { intros w s Hi self w' Hl ops.
       assert (Hs : _instance w' = Some self).
       { subst w'. rewrite construct_world.
         destruct (init_effect (target w) (entered w)) as [-> _].
         rewrite entered_instance. unfold target. by rewrite Hi. }
       destruct (Hlater w' self _ Hs Hl eq_refl ops) as [-> _].
       subst w'. rewrite construct_world. unfold target, entered. rewrite Hi.
       fold self.
       rewrite (init_registers self (created w) blank);
         [done|apply lookup_watcher_insert|done]. }
  - intros w Hi self w'. subst w'. rewrite (construct_first _ Hi). fold self.
    unfold initialize_spec. change (environ (created w)) with (environ w).
    change (flows (created w)) with (flows w).
    change (trace (created w)) with (trace w).
    destruct (environ w !! "LIGHTNING_FLOW_NAME") as [flow|].
    2: { simpl. split; [done|]. left. split; [apply lookup_watcher_insert|auto]. }
    destruct (flows w flow) as [v|e].
    2: { simpl. split; [done|]. left. split; [apply lookup_watcher_insert|eauto]. }
    destruct (ClassSelector_validate true v) as [e|s].
    { simpl. split; [done|]. left. split; [apply lookup_watcher_insert|eauto]. }
    set (w1 := set_trace _ _).
    assert (Hl1 : lookup_watcher self w1 = Some (sealed s))
      by apply lookup_watcher_insert.
    rewrite (check_state_run _ _ _ Hl1).
    assert (Hw : world_of (match (match check_spec (sealed s) with
                                  | Some e => Raise e w1
                                  | None => Return tt w1
                                  end) with
                           | Return _ w2 => Return self w2
                           | Raise e w2 => Raise e w2
                           end) = w1) by (by destruct (check_spec _)).
    rewrite Hw. split; [done|]. right. by exists flow, s.
  - intros w self o Hs Hl Hf. split.
    + rewrite construct_world. unfold target, entered.
      rewrite Hs, (init_run _ _ _ Hl), Hf, (check_state_run _ _ _ Hl).
      by destruct (check_spec o).
    + by apply (Hlater w self o).
Qed.

(** *** The closing checks *)

Lemma construct_after_setup w w1 :
  setup (target w) (entered w) = Return tt w1 ->
  AppStateWatcher w = match check_state (target w) w1 with
                      | Return _ w2 => Return (target w) w2
                      | Raise e w2 => Raise e w2
                      end.
Proof.
  intros Hs. rewrite construct_run. unfold __init__. rewrite run_bind, Hs.
  reflexivity.
Qed.

(** C9: every constructor call that gets through the guarded block ends in
    the two checks, and on an instance whose flag is set the call is nothing
    but the two checks; and the checks test for truth: a snapshot that is
    there but false raises the same exception as no snapshot, and a payload
    that is there but false raises the same exception as no payload. *)
Theorem validation_on_every_call :
  (forall w w1,
     setup (target w) (entered w) = Return tt w1 ->
     AppStateWatcher w = match check_state (target w) w1 with
                         | Return _ w2 => Return (target w) w2
                         | Raise e w2 => Raise e w2
                         end) /\
  (forall w i o,
     _instance w = Some i -> lookup_watcher i w = Some o ->
     _initilized o = true ->
     AppStateWatcher w = match check_state i w with
                         | Return _ w2 => Return i w2
                         | Raise e w2 => Raise e w2
                         end) /\
  (forall self w o,
     lookup_watcher self w = Some o ->
     (state o = None ->
        check_state self w = Raise (Exception ".state has not been set.") w) /\
     (forall a, state o = Some a -> AppState_bool a = false ->
        check_state self w = Raise (Exception ".state has not been set.") w) /\
     (forall a, state o = Some a -> AppState_bool a = true ->
        AppState_state a = None ->
        check_state self w
        = Raise (Exception ".state._state has not been set.") w) /\
     (forall a p, state o = Some a -> AppState_bool a = true ->
        AppState_state a = Some p -> Payload_bool p = false ->
        check_state self w
        = Raise (Exception ".state._state has not been set.") w)).
Proof.
  split_and!.
  - apply construct_after_setup.
  - intros w i o Hi Hl Hf.
    assert (Hs : setup (target w) (entered w) = Return tt w).
    { unfold target, entered. rewrite Hi, (setup_run _ _ _ Hl). by rewrite Hf. }
    rewrite (construct_after_setup _ _ Hs). unfold target. by rewrite Hi.
  - intros self w o Hl. rewrite (check_state_run _ _ _ Hl). unfold check_spec.
    split_and!.
    + by intros ->.
    + by intros a -> ->.
    + by intros a -> -> ->.
    + by intros a p -> -> -> ->.
Qed.

(** C5, amended: once the guarded block is through, the constructor call
    raises [Exception(".state has not been set.")] when the held state is
    [None] or false, raises [Exception(".state._state has not been set.")]
    when the state is true and its payload is [None] or false, and otherwise
    returns the instance. *)
Theorem constructor_raises_iff_false w w1 o1 :
  setup (target w) (entered w) = Return tt w1 ->
  lookup_watcher (target w) w1 = Some o1 ->
  AppStateWatcher w
  = if py_not_state (state o1)
    then Raise (Exception ".state has not been set.") w1
    else if py_not_payload (state o1 ≫= AppState_state)
         then Raise (Exception ".state._state has not been set.") w1
         else Return (target w) w1.
Proof.
  intros Hs Hl. rewrite (construct_after_setup _ _ Hs).
  rewrite (check_state_run _ _ _ Hl). unfold check_spec.
  destruct (state o1) as [a|]; simpl; [|done].
  destruct (AppState_bool a); simpl; [|done].
  destruct (AppState_state a) as [p|]; simpl; [|done].
  by destruct (Payload_bool p).
Qed.

(** *** A first construction that fails *)

Lemma initialize_unfold self w o :
  lookup_watcher self w = Some o ->
  initialize self w
  = match _start_watching self
            (world_of (Parameterized__init__ self "singleton" w)) with
    | Return _ w3 =>
        (write_self self (with_allow_None false);;
         write_self self (with_initilized true)) w3
    | Raise e w3 => Raise e w3
    end.
Proof.
  intros Hl. unfold initialize, Parameterized__init__.
  rewrite run_bind, (write_self_run _ _ _ _ Hl). cbv beta iota.
  simpl world_of. by rewrite run_bind.
Qed.

Lemma initialize_raises self w o e w1 :
  lookup_watcher self w = Some o ->
  _initilized o = false ->
  initialize self w = Raise e w1 ->
  exists t, w1 = set_trace t (armed self o w).
Proof.
  intros Hl Hf. rewrite (initialize_spec_correct _ _ _ Hl Hf).
  unfold initialize_spec.
  destruct (environ w !! "LIGHTNING_FLOW_NAME") as [flow|].
  2: { intros [= _ <-]. by exists (trace w). }
  destruct (flows w flow) as [v|e'].
  2: { intros [= _ <-]. eauto. }
  destruct (ClassSelector_validate true v) as [e'|s]; [|done].
  intros [= _ <-]. eauto.
Qed.

(** C10: when [_start_watching] raises during the first construction, the
    constructor call raises the same exception, the instance stays cached in
    the class attribute, and its [_initilized] flag is not set. The next
    constructor call therefore finds the cached instance and runs the whole
    guarded block on it again: it registers the callback a second time and
    refreshes again. *)
Theorem failed_start_is_retried w e w1 :
  _instance w = None ->
  let self := fresh (dom (heap w)) in
  _start_watching self
    (world_of (Parameterized__init__ self "singleton" (created w)))
  = Raise e w1 ->
  AppStateWatcher w = Raise e w1 /\
  _instance w1 = Some self /\
  (exists o1, lookup_watcher self w1 = Some o1 /\ _initilized o1 = false) /\
  _CALLBACKS w1 = (_CALLBACKS w ++ [self])%list /\
  __new__ w1 = Return self w1 /\
  __init__ self w1 = (initialize self ≫= fun _ => check_state self) w1 /\
  _CALLBACKS (world_of (AppStateWatcher w1)) = (_CALLBACKS w ++ [self; self])%list.
Proof.
  intros Hi self Hsw.
  assert (Hl : lookup_watcher self (created w) = Some blank)
    by apply lookup_watcher_insert.
  assert (Hini : initialize self (created w) = Raise e w1)
    by (by rewrite (initialize_unfold _ _ _ Hl), Hsw).
  destruct (initialize_raises _ _ _ _ _ Hl eq_refl Hini) as [t ->].
  set (w1 := set_trace t _) in *.
  assert (Hl1 : lookup_watcher self w1 = Some (reset blank))
    by apply lookup_watcher_insert.
  assert (Hs1 : _instance w1 = Some self) by done.
  split_and!.
  - rewrite construct_run. unfold target, entered. rewrite Hi. fold self.
    by rewrite (init_run _ _ _ Hl), Hini.
  - done.
  - by exists (reset blank).
  - done.
  - by apply new_cached.
  - rewrite (init_run _ _ _ Hl1). simpl. by rewrite run_bind.
  - rewrite construct_world. unfold target, entered. rewrite Hs1.
    rewrite (init_registers _ _ _ Hl1) by done.
    simpl. by rewrite <- app_assoc.
Qed.

(** *** Threads *)

Lemma thread_alone_new w :
  thread_alone w = (self ← __new__; mret (Finished self)) w.
Proof.
  unfold thread_alone. rewrite !run_bind.
  destruct (_instance w) as [i|] eqn:Hi.
  - rewrite (new_cached _ _ Hi). unfold thread_step at 1. mred. rewrite Hi.
    rewrite bool_decide_true by eauto. cbn [negb]. mred.
    unfold thread_step at 1. mred. rewrite Hi. mred.
    unfold thread_step. mred. reflexivity.
  - rewrite (new_first _ Hi). unfold thread_step at 1. mred. rewrite Hi.
    rewrite bool_decide_false by (by intros [? ?]). cbn [negb]. mred.
    unfold thread_step at 1, object__new__. mred.
    unfold thread_step at 1. mred. cbn [_instance set_cls_instance]. mred.
    unfold thread_step. mred. reflexivity.
Qed.

Lemma thread_step_cached p w i :
  _instance w = Some i -> p <> AtCreate ->
  exists p', thread_step p w = Return p' w /\ p' <> AtCreate.
Proof.
  intros Hi Hp. destruct p as [| | |self]; [|done| |]; unfold thread_step; mred.
  - rewrite Hi, bool_decide_true by eauto. cbn [negb]. mred. by exists AtReturn.
  - rewrite Hi. mred. by exists (Finished i).
  - by exists (Finished self).
Qed.

Lemma interleave_cached sched : forall ts w i,
  _instance w = Some i ->
  Forall (fun p => p <> AtCreate) ts ->
  (interleave sched ts w).2 = w.
Proof.
  induction sched as [|t sched IH]; intros ts w i Hi Hts; [done|]. simpl.
  destruct (ts !! t) as [p|] eqn:Hp; [|by eapply IH].
  assert (Hpc : p <> AtCreate)
    by (eapply (proj1 (Forall_lookup _ _)) in Hts; eauto).
  destruct (thread_step_cached p w i Hi Hpc) as (p' & -> & Hp').
  eapply IH; [done|]. by apply Forall_insert.
Qed.

(** C8, amended: when the operations of the process run one at a time, the
    heap never holds more than one watcher; a thread that runs [__new__]
    without being interrupted does what [__new__] does; and threads that
    enter [__new__] when the class attribute is already set leave the world
    as it is, however they are interleaved. *)
Theorem guard_without_overlap :
  (forall w, reachable w ->
     forall i j oi oj,
       lookup_watcher i w = Some oi -> lookup_watcher j w = Some oj -> i = j) /\
  (forall w, thread_alone w = (self ← __new__; mret (Finished self)) w) /\
  (forall sched ts w i,
     _instance w = Some i -> Forall (fun p => p <> AtCreate) ts ->
     (interleave sched ts w).2 = w).
Proof.
  split_and!.
  - intros w (I1 & _)%reachable_Inv i j oi oj Hi Hj.
    apply I1 in Hi, Hj. congruence.
  - apply thread_alone_new.
  - intros sched ts w i. apply interleave_cached.
Qed.

(** *** What a refresh that returns has done *)

Lemma refresh_returns self w w' :
  _update_flow_state self w = Return tt w' ->
  exists o flow v s,
    lookup_watcher self w = Some o /\
    environ w !! "LIGHTNING_FLOW_NAME" = Some flow /\
    flows w flow = Fetched v /\
    ClassSelector_validate (allow_None o) v = inr s /\
    w' = refreshed self o s flow w.
Proof.
  rewrite refresh_spec_correct. unfold refresh_spec.
  destruct (lookup_watcher self w) as [o|]; [|done].
  destruct (environ w !! "LIGHTNING_FLOW_NAME") as [flow|]; [|done].
  destruct (flows w flow) as [v|e] eqn:Hf; [|done].
  destruct (ClassSelector_validate (allow_None o) v) as [e|s] eqn:Hv; [done|].
  intros [= <-]. by exists o, flow, v, s.
Qed.

Lemma notice_some self (old : option AppState) a :
  notice self old (Some a) = [EvChange self old (Some a)].
Proof. by destruct old. Qed.

Lemma refreshed_fetches self o s flow w :
  fetches (trace (refreshed self o s flow w))
  = (fetches (trace w) ++ [EvFetch flow])%list.
Proof.
  unfold fetches, refreshed, notice. simpl. rewrite List.filter_app. simpl.
  by destruct (param_changed (state o) s).
Qed.

Lemma refreshed_changes self o s flow w :
  changes (trace (refreshed self o s flow w))
  = (changes (trace w) ++ notice self (state o) s)%list.
Proof.
  unfold changes, refreshed, notice. simpl. rewrite List.filter_app. simpl.
  rewrite List.filter_app. simpl.
  destruct (param_changed (state o) s); simpl; by rewrite ?app_nil_r.
Qed.

(** C1: when a call of [_update_flow_state] returns, it has called
    [get_flow_state] once, for the flow the environment names, and the held
    [state] is exactly the value that call returned, whatever was held
    before. *)
Theorem refresh_replaces_state self w w' :
  _update_flow_state self w = Return tt w' ->
  exists flow v o',
    environ w !! "LIGHTNING_FLOW_NAME" = Some flow /\
    flows w flow = Fetched v /\
    fetches (trace w') = (fetches (trace w) ++ [EvFetch flow])%list /\
    lookup_watcher self w' = Some o' /\
    pyval_of (state o') = v.
Proof.
  intros Hr. apply refresh_returns in Hr as (o & flow & v & s & Hl & He & Hf & Hv & ->).
  exists flow, v, (with_state s o). repeat split; try done.
  - apply refreshed_fetches.
  - apply lookup_watcher_insert.
  - by apply validate_inr in Hv as [? _].
Qed.

(** C7, amended: a call of [_update_flow_state] that fetches a snapshot
    returns and notifies the dependents of [state] exactly once, from the
    value held before to the snapshot fetched; nothing in this asks the two
    to differ, so when the snapshot fetched is the one already held the
    notification is given all the same. A call that raises notifies nobody.
    A call that returns notifies once unless it has stored [None] over
    [None]. *)
Theorem refresh_notifies_once :
  (forall self w o flow a,
     lookup_watcher self w = Some o ->
     environ w !! "LIGHTNING_FLOW_NAME" = Some flow ->
     flows w flow = Fetched (PyAppState a) ->
     exists w',
       _update_flow_state self w = Return tt w' /\
       lookup_watcher self w' = Some (with_state (Some a) o) /\
       changes (trace w')
       = (changes (trace w) ++ [EvChange self (state o) (Some a)])%list /\
       (state o = Some a ->
        changes (trace w')
        = (changes (trace w) ++ [EvChange self (Some a) (Some a)])%list)) /\
  (forall self w e w',
     _update_flow_state self w = Raise e w' ->
     changes (trace w') = changes (trace w)) /\
  (forall self w w',
     _update_flow_state self w = Return tt w' ->
     exists o s,
       lookup_watcher self w = Some o /\
       lookup_watcher self w' = Some (with_state s o) /\
       changes (trace w')
       = (changes (trace w)
          ++ match state o, s with
             | None, None => []
             | old, new => [EvChange self old new]
             end)%list).
Proof.
  split_and!.
  - intros self w o flow a Hl He Hf. exists (refreshed self o (Some a) flow w).
    assert (Hc : changes (trace (refreshed self o (Some a) flow w))
                 = (changes (trace w) ++ [EvChange self (state o) (Some a)])%list)
      by (by rewrite refreshed_changes, notice_some).
    split_and!.
    + rewrite refresh_spec_correct. unfold refresh_spec. by rewrite Hl, He, Hf.
    + apply lookup_watcher_insert.
    + exact Hc.
    + intros Hs. by rewrite Hc, Hs.
  - intros self w e w'. rewrite refresh_spec_correct. unfold refresh_spec.
    destruct (lookup_watcher self w) as [o|]; [|by intros [= _ <-]].
    destruct (environ w !! "LIGHTNING_FLOW_NAME") as [flow|];
      [|by intros [= _ <-]].
    assert (Hfetch : changes (trace (set_trace (trace w ++ [EvFetch flow]) w))
                     = changes (trace w)).
    { unfold changes. simpl. rewrite List.filter_app. simpl.
      by rewrite app_nil_r. }
    destruct (flows w flow) as [v|e']; [|by intros [= _ <-]].
    destruct (ClassSelector_validate (allow_None o) v) as [e'|s]; [|done].
    by intros [= _ <-].
  - intros self w w' Hr.
    apply refresh_returns in Hr as (o & flow & v & s & Hl & _ & _ & _ & ->).
    exists o, s. split_and!; [done|apply lookup_watcher_insert|].
    rewrite refreshed_changes. unfold notice.
    by destruct (state o), s.
Qed.

(** C4: when the environment variable LIGHTNING_FLOW_NAME is absent, a
    refresh raises [KeyError] for that name to its caller and leaves the
    world as it found it: no default name is used, [get_flow_state] is not
    called and the held state is not touched. *)
Theorem refresh_without_flow_name self w o :
  lookup_watcher self w = Some o ->
  environ w !! "LIGHTNING_FLOW_NAME" = None ->
  _get_flow_state self w = Raise (KeyError "LIGHTNING_FLOW_NAME") w /\
  _update_flow_state self w = Raise (KeyError "LIGHTNING_FLOW_NAME") w.
Proof.
  intros Hl He. split.
  - unfold _get_flow_state, os_environ_getitem. mred. by rewrite He.
  - rewrite refresh_spec_correct. unfold refresh_spec. by rewrite Hl, He.
Qed.

(** ** Further properties of the methods *)

(** *** The refresh *)

Lemma refresh_fetches self w o flow a :
  lookup_watcher self w = Some o ->
  environ w !! "LIGHTNING_FLOW_NAME" = Some flow ->
  flows w flow = Fetched (PyAppState a) ->
  _update_flow_state self w = Return tt (refreshed self o (Some a) flow w).
Proof.
  intros Hl He Hf. rewrite refresh_spec_correct. unfold refresh_spec.
  by rewrite Hl, He, Hf.
Qed.

Lemma with_state_same o : with_state (state o) o = o.
Proof. by destruct o. Qed.

(** X1: whether it returns or raises, a refresh changes nothing of its
    watcher but [state]: the parameter is constant again, [allow_None], the
    name and the [_initilized] flag are as before. Every other object, the
    class attribute, the registry, the environment and the flows are left
    alone. *)
Theorem refresh_changes_only_state self w o :
  lookup_watcher self w = Some o ->
  (exists s, lookup_watcher self (world_of (_update_flow_state self w))
             = Some (with_state s o)) /\
  (forall j, j <> self ->
     heap (world_of (_update_flow_state self w)) !! j = heap w !! j) /\
  _instance (world_of (_update_flow_state self w)) = _instance w /\
  _CALLBACKS (world_of (_update_flow_state self w)) = _CALLBACKS w /\
  environ (world_of (_update_flow_state self w)) = environ w /\
  flows (world_of (_update_flow_state self w)) = flows w.
Proof.
  intros Hl. rewrite refresh_spec_correct. unfold refresh_spec. rewrite Hl.
  assert (Hsame : exists s, lookup_watcher self w = Some (with_state s o))
    by (exists (state o); by rewrite with_state_same).
  destruct (environ w !! "LIGHTNING_FLOW_NAME") as [flow|]; [|done].
  destruct (flows w flow) as [v|e]; [|done].
  destruct (ClassSelector_validate (allow_None o) v) as [e|s]; [done|].
  simpl. split_and!; try done.
  - exists s. apply lookup_watcher_insert.
  - intros j Hj. by rewrite lookup_insert_ne.
Qed.

(** X2: a refresh that raises leaves the heap as it was, so the snapshot
    held before is still held; it raises no change event and logs no debug
    line: the trace has gained at most the record of the fetch. *)
Theorem refresh_failure_keeps_state self w e w' :
  _update_flow_state self w = Raise e w' ->
  heap w' = heap w /\
  (trace w' = trace w \/
   exists flow, environ w !! "LIGHTNING_FLOW_NAME" = Some flow /\
                trace w' = (trace w ++ [EvFetch flow])%list).
Proof.
  rewrite refresh_spec_correct. unfold refresh_spec.
  destruct (lookup_watcher self w) as [o|]; [|intros [= _ <-]; auto].
  destruct (environ w !! "LIGHTNING_FLOW_NAME") as [flow|];
    [|intros [= _ <-]; auto].
  destruct (flows w flow) as [v|e']; [|intros [= _ <-]; simpl; eauto].
  destruct (ClassSelector_validate (allow_None o) v) as [e'|s]; [|done].
  intros [= _ <-]. simpl. eauto.
Qed.

(** X3: in a process, once the [_initilized] flag of a watcher is set, a
    refresh whose fetch returns anything but an [AppState] instance, [None]
    included, raises [ValueError] and keeps the heap as it was. *)
Theorem refresh_rejects_other_values self w o flow v :
  reachable w ->
  lookup_watcher self w = Some o ->
  _initilized o = true ->
  environ w !! "LIGHTNING_FLOW_NAME" = Some flow ->
  flows w flow = Fetched v ->
  (forall a, v <> PyAppState a) ->
  exists msg,
    _update_flow_state self w
    = Raise (ValueError msg) (set_trace (trace w ++ [EvFetch flow]) w).
Proof.
  intros (_ & I2 & _)%reachable_Inv Hl Hi He Hf Hv.
  rewrite refresh_spec_correct. unfold refresh_spec. rewrite Hl, He, Hf.
  rewrite (I2 _ _ Hl Hi). destruct v as [|a|c]; simpl; eauto.
  by destruct (Hv a).
Qed.

Lemma perform_call k w self :
  _CALLBACKS w !! k = Some self ->
  perform (Call k) w = match _update_flow_state self w with
                       | Return _ w' => Return None w'
                       | Raise e w' => Raise e w'
                       end.
Proof.
  intros Hk. unfold perform. rewrite run_bind, run_get. cbv beta iota.
  rewrite Hk, run_bind. by destruct (_update_flow_state self w).
Qed.

Lemma run_cons a ops w :
  run (a :: ops) w
  = (result_of (perform a w) :: (run ops (world_of (perform a w))).1,
     (run ops (world_of (perform a w))).2).
Proof. reflexivity. Qed.

Lemma run_nil w : run [] w = ([], w).
Proof. reflexivity. Qed.

Lemma perform_putenv key value w :
  perform (Putenv key value) w
  = Return None (set_environ (<[key := value]> (environ w)) w).
Proof. reflexivity. Qed.

Lemma perform_unsetenv key w :
  perform (Unsetenv key) w
  = Return None (set_environ (delete key (environ w)) w).
Proof. reflexivity. Qed.

(** X4: the name of the flow is read from the environment at every refresh:
    when the variable is given a new value, the next callback fetches the
    flow of that name and holds its snapshot. *)
Theorem flow_name_read_each_time w k self o f a :
  _CALLBACKS w !! k = Some self ->
  lookup_watcher self w = Some o ->
  flows w f = Fetched (PyAppState a) ->
  (run [Putenv "LIGHTNING_FLOW_NAME" f; Call k] w).1
  = [Returned None; Returned None] /\
  lookup_watcher self (run [Putenv "LIGHTNING_FLOW_NAME" f; Call k] w).2
  = Some (with_state (Some a) o) /\
  fetches (trace (run [Putenv "LIGHTNING_FLOW_NAME" f; Call k] w).2)
  = (fetches (trace w) ++ [EvFetch f])%list.
Proof.
  intros Hk Hl Hf. rewrite !run_cons, run_nil, perform_putenv.
  cbn [world_of result_of fst snd].
  set (w1 := set_environ _ w).
  assert (He : environ w1 !! "LIGHTNING_FLOW_NAME" = Some f)
    by apply lookup_insert_eq.
  rewrite (perform_call k w1 self Hk), (refresh_fetches self w1 o f a Hl He Hf).
  cbn [world_of result_of fst snd]. split_and!; [done| |].
  - apply lookup_watcher_insert.
  - apply (refreshed_fetches self o (Some a) f w1).
Qed.

(** *** The constructor *)

Lemma check_spec_true o a p :
  state o = Some a -> AppState_bool a = true ->
  AppState_state a = Some p -> Payload_bool p = true ->
  check_spec o = None.
Proof. unfold check_spec. by intros -> -> -> ->. Qed.

Lemma construct_initialized w i o :
  _instance w = Some i -> lookup_watcher i w = Some o ->
  _initilized o = true ->
  AppStateWatcher w = match check_spec o with
                      | Some e => Raise e w
                      | None => Return i w
                      end.
Proof.
  intros Hi Hl Hf. rewrite construct_run. unfold target, entered. rewrite Hi.
  rewrite (init_run _ _ _ Hl), Hf, (check_state_run _ _ _ Hl).
  by destruct (check_spec o).
Qed.

Lemma perform_construct w :
  perform Construct w = match AppStateWatcher w with
                        | Return i w' => Return (Some i) w'
                        | Raise e w' => Raise e w'
                        end.
Proof. unfold perform. rewrite run_bind. by destruct (AppStateWatcher w). Qed.

(** X5: the first constructor call of a process returns the new instance
    when the environment names a flow and the fetch for it gives a snapshot
    that is true and has a true payload. The instance then holds that
    snapshot, is cached in the class attribute, has its flag set, and its
    callback is in the registry; the trace has gained one fetch, one change
    event and one debug line. *)
Theorem first_construction_succeeds w flow a p :
  _instance w = None ->
  environ w !! "LIGHTNING_FLOW_NAME" = Some flow ->
  flows w flow = Fetched (PyAppState a) ->
  AppState_bool a = true ->
  AppState_state a = Some p ->
  Payload_bool p = true ->
  exists w',
    AppStateWatcher w = Return (fresh (dom (heap w))) w' /\
    _instance w' = Some (fresh (dom (heap w))) /\
    lookup_watcher (fresh (dom (heap w))) w' = Some (sealed (Some a)) /\
    _CALLBACKS w' = (_CALLBACKS w ++ [fresh (dom (heap w))])%list /\
    trace w' = (trace w ++ [EvFetch flow;
                            EvChange (fresh (dom (heap w))) None (Some a);
                            EvDebug "Request app state"])%list.
Proof.
  intros Hi He Hf Hb Hp Hpb. rewrite (construct_first _ Hi).
  unfold initialize_spec. change (environ (created w)) with (environ w).
  change (flows (created w)) with (flows w). rewrite He, Hf. simpl.
  erewrite check_state_run by apply lookup_watcher_insert.
  rewrite (check_spec_true (sealed (Some a)) a p) by done.
  eexists. split; [reflexivity|]. split_and!; try done.
  apply lookup_watcher_insert.
Qed.

(** X6: when the fetch of the first construction returns [None], the
    assignment is accepted, the [_initilized] flag is set, and only then does
    the constructor raise [Exception(".state has not been set.")]. A second
    constructor call therefore does not run the guarded block again: it
    raises the same exception and changes nothing. *)
Theorem first_fetch_of_none w flow :
  _instance w = None ->
  environ w !! "LIGHTNING_FLOW_NAME" = Some flow ->
  flows w flow = Fetched PyNone ->
  exists w',
    AppStateWatcher w = Raise (Exception ".state has not been set.") w' /\
    lookup_watcher (fresh (dom (heap w))) w' = Some (sealed None) /\
    _CALLBACKS w' = (_CALLBACKS w ++ [fresh (dom (heap w))])%list /\
    AppStateWatcher w' = Raise (Exception ".state has not been set.") w'.
Proof.
  intros Hi He Hf. rewrite (construct_first _ Hi).
  unfold initialize_spec. change (environ (created w)) with (environ w).
  change (flows (created w)) with (flows w). rewrite He, Hf. simpl.
  erewrite check_state_run by apply lookup_watcher_insert. simpl.
  set (w' := set_trace _ _).
  assert (Hl : lookup_watcher (fresh (dom (heap w))) w' = Some (sealed None))
    by apply lookup_watcher_insert.
  exists w'. split_and!; try done.
  by rewrite (construct_initialized w' _ _ eq_refl Hl eq_refl).
Qed.

(** X7: an instance whose flag is set starts passing the constructor's
    checks as soon as a refresh has fetched a snapshot that is true and has a
    true payload: the refresh returns, and the constructor call after it
    returns the instance and changes nothing. *)
Theorem refresh_then_construct w self o flow a p :
  _instance w = Some self ->
  lookup_watcher self w = Some o ->
  _initilized o = true ->
  environ w !! "LIGHTNING_FLOW_NAME" = Some flow ->
  flows w flow = Fetched (PyAppState a) ->
  AppState_bool a = true ->
  AppState_state a = Some p ->
  Payload_bool p = true ->
  exists w1,
    _update_flow_state self w = Return tt w1 /\
    lookup_watcher self w1 = Some (with_state (Some a) o) /\
    AppStateWatcher w1 = Return self w1.
Proof.
  intros Hi Hl Hf He Hfl Hb Hp Hpb.
  exists (refreshed self o (Some a) flow w).
  assert (Hl1 : lookup_watcher self (refreshed self o (Some a) flow w)
                = Some (with_state (Some a) o)) by apply lookup_watcher_insert.
  split_and!; [by apply refresh_fetches|done|].
  rewrite (construct_initialized (refreshed self o (Some a) flow w) self
             (with_state (Some a) o) Hi Hl1 Hf).
  by rewrite (check_spec_true _ a p).
Qed.

(** X8: an instance that passes the constructor's checks survives the loss
    of the environment variable: the next callback raises [KeyError], the
    snapshot stays held, and a constructor call still returns the
    instance. *)
Theorem lost_name_keeps_singleton w i o k a p :
  _instance w = Some i ->
  lookup_watcher i w = Some o ->
  _initilized o = true ->
  state o = Some a -> AppState_bool a = true ->
  AppState_state a = Some p -> Payload_bool p = true ->
  _CALLBACKS w !! k = Some i ->
  (run [Unsetenv "LIGHTNING_FLOW_NAME"; Call k; Construct] w).1
  = [Returned None; Raised (KeyError "LIGHTNING_FLOW_NAME");
     Returned (Some i)] /\
  lookup_watcher i
    (run [Unsetenv "LIGHTNING_FLOW_NAME"; Call k; Construct] w).2 = Some o.
Proof.
  intros Hi Hl Hf Hs Hb Hp Hpb Hk.
  rewrite !run_cons, run_nil, perform_unsetenv.
  cbn [world_of result_of fst snd]. set (w1 := set_environ _ w).
  assert (He : environ w1 !! "LIGHTNING_FLOW_NAME" = None)
    by apply lookup_delete_eq.
  assert (Hl1 : lookup_watcher i w1 = Some o) by exact Hl.
  rewrite (perform_call k w1 i Hk), refresh_spec_correct.
  unfold refresh_spec. rewrite Hl1, He. cbn [world_of result_of fst snd].
  rewrite perform_construct, (construct_initialized w1 i o Hi Hl1 Hf).
  by rewrite (check_spec_true o a p).
Qed.

(** X9: the constructor does not catch what the fetch raises: when
    [get_flow_state] raises during the first construction, the constructor
    call raises the same exception; the instance is cached and its callback
    registered all the same, with the flag unset and no state held. *)
Theorem first_construction_fetch_raises w flow e :
  _instance w = None ->
  environ w !! "LIGHTNING_FLOW_NAME" = Some flow ->
  flows w flow = FetchRaises e ->
  exists w',
    AppStateWatcher w = Raise e w' /\
    _instance w' = Some (fresh (dom (heap w))) /\
    lookup_watcher (fresh (dom (heap w))) w' = Some (reset blank) /\
    _CALLBACKS w' = (_CALLBACKS w ++ [fresh (dom (heap w))])%list.
Proof.
  intros Hi He Hf. rewrite (construct_first _ Hi).
  unfold initialize_spec. change (environ (created w)) with (environ w).
  change (flows (created w)) with (flows w). rewrite He, Hf.
  eexists. split; [reflexivity|]. split_and!; try done.
  apply lookup_watcher_insert.
Qed.

(** *** Between the operations of a process *)

Lemma Steady_boot env fl : Steady (boot env fl).
Proof.
  split; intros j o Hl; unfold lookup_watcher in Hl; simpl in Hl;
    by rewrite lookup_empty in Hl.
Qed.

Lemma Steady_entered w : Steady w -> Steady (entered w).
Proof.
  intros HS. pose proof HS as [S1 S2].
  unfold entered. destruct (_instance w); [done|].
  split; intros j o;
    rewrite (lookup_watcher_put j (fresh (dom (heap w))) blank w) by done;
    (destruct (decide _) as [<-|]; [by intros [= <-]|]).
  - apply S1.
  - apply S2.
Qed.

Lemma Steady_init self w : Steady w -> Steady (world_of (__init__ self w)).
Proof.
  intros HS. pose proof HS as [S1 S2].
  destruct (init_effect self w) as [_ [[-> _]|Hc]]; [done|].
  destruct Hc as (o & o' & Hl & Hf & Ho' & Hh & Hcb).
  split; intros j x; rewrite (lookup_watcher_put _ _ _ _ _ Hh), ?Hcb;
    destruct (decide (self = j)) as [<-|].
  - intros [= <-]. by destruct Ho' as [->|[s ->]].
  - apply S1.
  - intros _ _. apply elem_of_app. right. by apply list_elem_of_singleton.
  - intros Hj Hx. apply elem_of_app. left. eauto.
Qed.

Lemma Steady_refresh self w :
  Steady w -> Steady (world_of (_update_flow_state self w)).
Proof.
  intros [S1 S2]. destruct (refresh_effect self w) as (_ & Hcb & [Hh|Hc]).
  - split; intros j x; rewrite (lookup_watcher_same_heap _ _ _ Hh), ?Hcb; eauto.
  - destruct Hc as (o & s & Hl & _ & Hh).
    split; intros j x; rewrite (lookup_watcher_put _ _ _ _ _ Hh), ?Hcb;
      (destruct (decide (self = j)) as [<-|]; [intros [= <-]; simpl; eauto|]).
    + apply S1.
    + apply S2.
Qed.

Lemma Steady_perform a w : Steady w -> Steady (world_of (perform a w)).
Proof.
  intros HS. destruct a as [|k|key value|key|f|]; simpl.
  - unfold perform. rewrite world_of_map, construct_world.
    by apply Steady_init, Steady_entered.
  - rewrite run_bind, run_get. cbv beta iota.
    destruct (_CALLBACKS w !! k) as [self|]; [|done].
    rewrite world_of_then. by apply Steady_refresh.
  - done.
  - done.
  - done.
  - mred. simpl. destruct HS as [S1 S2].
    split; intros j x; unfold lookup_watcher; simpl; rewrite lookup_insert;
      (destruct (decide _); [done|]).
    + apply S1.
    + apply S2.
Qed.

Lemma Steady_run ops : forall w, Steady w -> Steady (run ops w).2.
Proof.
  induction ops as [|a ops IH]; intros w HS; [done|]. simpl.
  apply IH. by apply Steady_perform.
Qed.

(** X10: between the operations of a process, the parameter [state] of the
    watcher is constant: [edit_constant] lifts that for the time of the
    assignment in the refresh and puts it back on every way out. *)
Theorem state_stays_constant w j o :
  reachable w -> lookup_watcher j w = Some o -> constant o = true.
Proof.
  intros (env & fl & ops & <-) Hl.
  by destruct (Steady_run ops _ (Steady_boot env fl)) as [S1 _]; eapply S1.
Qed.

(** X11: in a process, a watcher whose [_initilized] flag is set has its
    refresh callback in the registry: the flag is only set after
    [_start_watching] has registered it. *)
Theorem initialized_is_subscribed w j o :
  reachable w -> lookup_watcher j w = Some o -> _initilized o = true ->
  j ∈ _CALLBACKS w.
Proof.
  intros (env & fl & ops & <-) Hl Hf.
  by destruct (Steady_run ops _ (Steady_boot env fl)) as [_ S2]; eapply S2.
Qed.

(** X12: in a process, every callback in the registry belongs to the one
    instance that the class attribute holds. *)
Theorem registry_holds_only_singleton w j :
  reachable w -> j ∈ _CALLBACKS w -> _instance w = Some j.
Proof.
  intros (I1 & _ & _ & I4)%reachable_Inv Hj.
  destruct (I4 j Hj) as [o Hl]. by eapply I1.
Qed.



End Proofs.

(** ** The code at work *)

Import Demo.

(** The scenario of the specification: the environment names "my_flow" and
    the fetch returns [counter 1], so after construction the held state is
    [counter 1]; the fetch then returns [counter 2] and the notifier calls
    back, after which the held state is [counter 2] and one more change event
    has been raised. *)
Example scenario :
  AppStateWatcher fresh_start = Return 0 started /\
  (state <$> lookup_watcher 0 started) = Some (Some (counter 1)) /\
  _CALLBACKS started = [0] /\
  (state <$> lookup_watcher 0 (run [Call 0] moved).2) = Some (Some (counter 2)) /\
  changes (trace (run [Call 0] moved).2)
  = [EvChange 0 None (Some (counter 1));
     EvChange 0 (Some (counter 1)) (Some (counter 2))].
Proof. vm_compute. repeat split. Qed.

Lemma refresh_replaces_state_witness :
  _update_flow_state 0 moved = Return tt (world_of (_update_flow_state 0 moved)) /\
  exists flow v o',
    environ moved !! "LIGHTNING_FLOW_NAME" = Some flow /\
    flows moved flow = Fetched v /\
    fetches (trace (world_of (_update_flow_state 0 moved)))
    = (fetches (trace moved) ++ [EvFetch flow])%list /\
    lookup_watcher 0 (world_of (_update_flow_state 0 moved)) = Some o' /\
    pyval_of (state o') = v.
Proof.
  split; [vm_compute; reflexivity|].
  apply (refresh_replaces_state 0 moved). vm_compute. reflexivity.
Defined.

Lemma refresh_without_flow_name_witness :
  lookup_watcher 0 (world_of (AppStateWatcher unnamed)) = Some (reset blank) /\
  environ (world_of (AppStateWatcher unnamed)) !! "LIGHTNING_FLOW_NAME" = None /\
  _update_flow_state 0 (world_of (AppStateWatcher unnamed))
  = Raise (KeyError "LIGHTNING_FLOW_NAME") (world_of (AppStateWatcher unnamed)).
Proof.
  split; [vm_compute; reflexivity|]. split; [vm_compute; reflexivity|].
  refine (proj2 (refresh_without_flow_name 0 _ (reset blank) _ _));
    vm_compute; reflexivity.
Defined.

Lemma singleton_identity_witness :
  (run busy fresh_start).1 !! 0 = Some (Returned (Some 0)) /\
  (run busy fresh_start).1 !! 3 = Some (Returned (Some 0)) /\
  0 = 0 /\
  _instance (run busy fresh_start).2 = Some 0 /\
  is_Some (lookup_watcher 0 (run busy fresh_start).2).
Proof.
  assert (H0 : (run busy fresh_start).1 !! 0 = Some (Returned (Some 0)))
    by (vm_compute; reflexivity).
  assert (H3 : (run busy fresh_start).1 !! 3 = Some (Returned (Some 0)))
    by (vm_compute; reflexivity).
  split; [exact H0|]. split; [exact H3|].
  destruct (singleton_identity fresh_start busy 0 3 0 0 H0 H3)
    as (Heq & Hinst & Hw & _).
  split; [exact Heq|]. split; [exact Hinst|exact Hw].
Defined.

Lemma state_never_null_witness :
  reachable fresh_start /\
  AppStateWatcher fresh_start = Return 0 started /\
  forall ops, exists o,
    lookup_watcher 0 (run ops started).2 = Some o /\ state o <> None.
Proof.
  assert (Hr : reachable fresh_start)
    by (exists env, (serve (counter 1)), []; reflexivity).
  assert (Hc : AppStateWatcher fresh_start = Return 0 started)
    by (vm_compute; reflexivity).
  split; [exact Hr|]. split; [exact Hc|].
  exact (state_never_null fresh_start 0 started Hr Hc).
Defined.

(** The flow answers with a snapshot whose payload is the empty dict. The
    held state and its payload are then both set, and still the constructor
    call raises: with the first message when a snapshot is as true as its
    payload, with the second when it is a plain object. *)
Lemma constructor_raises_on_set_state :
  raised (AppStateWatcher hollow_start)
  = Some (Exception ".state has not been set.") /\
  raised (AppStateWatcher (snap := plain_objects) hollow_start)
  = Some (Exception ".state._state has not been set.") /\
  (state <$> lookup_watcher 0 (world_of (AppStateWatcher hollow_start)))
  = Some (Some hollow) /\
  _state hollow = Some [].
Proof. vm_compute. repeat split. Qed.

Lemma constructor_raises_iff_false_witness :
  setup (target hollow_start) (entered hollow_start)
  = Return tt (world_of (AppStateWatcher hollow_start)) /\
  lookup_watcher (target hollow_start) (world_of (AppStateWatcher hollow_start))
  = Some (sealed (Some hollow)) /\
  AppStateWatcher hollow_start
  = Raise (Exception ".state has not been set.")
      (world_of (AppStateWatcher hollow_start)).
Proof.
  assert (Hs : setup (target hollow_start) (entered hollow_start)
               = Return tt (world_of (AppStateWatcher hollow_start)))
    by (vm_compute; reflexivity).
  assert (Hl : lookup_watcher (target hollow_start)
                 (world_of (AppStateWatcher hollow_start))
               = Some (sealed (Some hollow)))
    by (vm_compute; reflexivity).
  split; [exact Hs|]. split; [exact Hl|].
  exact (constructor_raises_iff_false hollow_start _ _ Hs Hl).
Defined.

Lemma initialization_once_witness :
  _instance fresh_start = None /\
  _CALLBACKS started = [0] /\
  _instance started = Some 0 /\
  lookup_watcher 0 started = Some (sealed (Some (counter 1))) /\
  world_of (AppStateWatcher started) = started /\
  forall ops, _CALLBACKS (run ops started).2 = [0].
Proof.
  assert (Hl : lookup_watcher 0 started = Some (sealed (Some (counter 1))))
    by (vm_compute; reflexivity).
  destruct (initialization_once (AppState := snapshot)) as (Hfirst & Hlater & Honce).
  pose proof (Hfirst fresh_start eq_refl) as [Hreg _].
  pose proof (Hlater started 0 _ eq_refl Hl eq_refl) as [Hsame _].
  split; [reflexivity|]. split; [exact Hreg|]. split; [reflexivity|].
  split; [exact Hl|]. split; [exact Hsame|].
  exact (Honce fresh_start _ eq_refl Hl).
Defined.

(** C6 fails on the code. A process starts without the name of the flow:
    the first constructor call registers the callback and raises [KeyError].
    The name is then set, and the second constructor call, finding the flag
    unset, runs the guarded block again and returns the instance. The
    registration-and-refresh sequence has now run twice in one process: the
    callback is in the registry twice, and one round of the notifier
    refreshes twice. The same happens when the flow was unreachable at the
    first call. *)
Theorem failed_start_registers_twice :
  (run [Construct; Putenv "LIGHTNING_FLOW_NAME" "my_flow"; Construct]
     (boot ∅ (serve (counter 1)))).1
  = [Raised (KeyError "LIGHTNING_FLOW_NAME"); Returned None; Returned (Some 0)] /\
  _CALLBACKS retried = [0; 0] /\
  length (fetches (trace (run (round retried) retried).2))
  = length (fetches (trace retried)) + 2 /\
  reconnected.1
  = [Raised (RemoteError "unreachable"); Returned None; Returned (Some 0)] /\
  _CALLBACKS reconnected.2 = [0; 0] /\
  length (fetches (trace reconnected.2)) = 2.
Proof. vm_compute. repeat split. Qed.

(** Two refreshes after which nobody has been notified. The first raises,
    because the flow has become unreachable. The second returns: it runs on
    an instance whose first construction failed, it fetches [None], and it
    stores [None] over [None]. *)
Lemma refresh_without_notification :
  raised (_update_flow_state 0 cut_off) = Some (RemoteError "unreachable") /\
  changes (trace (world_of (_update_flow_state 0 cut_off)))
  = changes (trace cut_off) /\
  returns (_update_flow_state 0 half_built) = true /\
  changes (trace (world_of (_update_flow_state 0 half_built)))
  = changes (trace half_built).
Proof. vm_compute. repeat split. Qed.

(** The flow still answers [counter 1], which is what is held: the refresh
    notifies all the same. With the flow unreachable, the refresh raises and
    notifies nobody. *)
Lemma refresh_notifies_once_witness :
  lookup_watcher 0 started = Some (sealed (Some (counter 1))) /\
  environ started !! "LIGHTNING_FLOW_NAME" = Some "my_flow" /\
  flows started "my_flow" = Fetched (PyAppState (counter 1)) /\
  (exists w',
     _update_flow_state 0 started = Return tt w' /\
     changes (trace w')
     = (changes (trace started)
        ++ [EvChange 0 (Some (counter 1)) (Some (counter 1))])%list) /\
  _update_flow_state 0 cut_off
  = Raise (RemoteError "unreachable") (world_of (_update_flow_state 0 cut_off)) /\
  changes (trace (world_of (_update_flow_state 0 cut_off)))
  = changes (trace cut_off).
Proof.
  assert (Hl : lookup_watcher 0 started = Some (sealed (Some (counter 1))))
    by (vm_compute; reflexivity).
  assert (He : environ started !! "LIGHTNING_FLOW_NAME" = Some "my_flow")
    by (vm_compute; reflexivity).
  assert (Hf : flows started "my_flow" = Fetched (PyAppState (counter 1)))
    by (vm_compute; reflexivity).
  assert (Hx : _update_flow_state 0 cut_off
               = Raise (RemoteError "unreachable")
                   (world_of (_update_flow_state 0 cut_off)))
    by (vm_compute; reflexivity).
  destruct (refresh_notifies_once (AppState := snapshot))
    as (Hfetch & Hraise & _).
  split; [exact Hl|]. split; [exact He|]. split; [exact Hf|].
  split.
  - destruct (Hfetch 0 started _ _ _ Hl He Hf) as (w' & Hr & _ & _ & Hsame).
    exists w'. split; [exact Hr|]. exact (Hsame eq_refl).
  - split; [exact Hx|]. exact (Hraise 0 cut_off _ _ Hx).
Defined.

Example unchanged_content_still_notifies :
  changes (trace (world_of (_update_flow_state 0 started)))
  = [EvChange 0 None (Some (counter 1));
     EvChange 0 (Some (counter 1)) (Some (counter 1))].
Proof. vm_compute. reflexivity. Qed.

(** Two threads on the first access: each has created an instance, and they
    have returned different objects. *)
Lemma guard_race :
  race.1 = [Finished 0; Finished 1] /\
  lookup_watcher 0 race.2 = Some blank /\
  lookup_watcher 1 race.2 = Some blank /\
  ~ (forall i j oi oj,
       lookup_watcher i race.2 = Some oi -> lookup_watcher j race.2 = Some oj ->
       i = j).
Proof.
  assert (H0 : lookup_watcher 0 race.2 = Some blank) by (vm_compute; reflexivity).
  assert (H1 : lookup_watcher 1 race.2 = Some blank) by (vm_compute; reflexivity).
  split; [vm_compute; reflexivity|]. split; [exact H0|]. split; [exact H1|].
  intros Hone. pose proof (Hone 0 1 _ _ H0 H1) as Heq. discriminate Heq.
Qed.

Lemma guard_without_overlap_witness :
  reachable started /\
  (forall i j oi oj,
     lookup_watcher i started = Some oi -> lookup_watcher j started = Some oj ->
     i = j) /\
  (interleave [0; 1; 0; 0; 1; 1] [AtTest; AtTest] started).2 = started.
Proof.
  assert (Hr : reachable started)
    by (exists env, (serve (counter 1)), [Construct]; vm_compute; reflexivity).
  destruct (guard_without_overlap (AppState := snapshot)) as (Hone & _ & Hlate).
  split; [exact Hr|]. split; [exact (Hone started Hr)|].
  apply (Hlate _ _ started 0); [vm_compute; reflexivity|].
  repeat constructor; discriminate.
Defined.

(** The instance is initialized and holds the hollow snapshot: the next
    constructor call runs the checks and raises. *)
Lemma validation_on_every_call_witness :
  _instance hollowed = Some 0 /\
  lookup_watcher 0 hollowed = Some (sealed (Some hollow)) /\
  check_state 0 hollowed
  = Raise (Exception ".state has not been set.") hollowed /\
  AppStateWatcher hollowed
  = Raise (Exception ".state has not been set.") hollowed.
Proof.
  assert (Hi : _instance hollowed = Some 0) by (vm_compute; reflexivity).
  assert (Hl : lookup_watcher 0 hollowed = Some (sealed (Some hollow)))
    by (vm_compute; reflexivity).
  destruct (validation_on_every_call (AppState := snapshot))
    as (_ & Hagain & Htruth).
  destruct (Htruth 0 hollowed _ Hl) as (_ & Hfalse & _).
  pose proof (Hfalse hollow eq_refl eq_refl) as Hc.
  split; [exact Hi|]. split; [exact Hl|]. split; [exact Hc|].
  rewrite (Hagain hollowed 0 _ Hi Hl eq_refl), Hc. reflexivity.
Defined.

Lemma failed_start_is_retried_witness :
  _instance unnamed = None /\
  _start_watching 0
    (world_of (Parameterized__init__ 0 "singleton" (created unnamed)))
  = Raise (KeyError "LIGHTNING_FLOW_NAME") (world_of (AppStateWatcher unnamed)) /\
  AppStateWatcher unnamed
  = Raise (KeyError "LIGHTNING_FLOW_NAME") (world_of (AppStateWatcher unnamed)) /\
  _CALLBACKS (world_of (AppStateWatcher unnamed)) = [0] /\
  _CALLBACKS (world_of (AppStateWatcher (world_of (AppStateWatcher unnamed))))
  = [0; 0].
Proof.
  assert (Hsw : _start_watching 0
            (world_of (Parameterized__init__ 0 "singleton" (created unnamed)))
          = Raise (KeyError "LIGHTNING_FLOW_NAME")
              (world_of (AppStateWatcher unnamed)))
    by (vm_compute; reflexivity).
  destruct (failed_start_is_retried unnamed _ _ eq_refl Hsw)
    as (Hr & _ & _ & Hc1 & _ & _ & Hc2).
  split; [reflexivity|]. split; [exact Hsw|]. split; [exact Hr|].
  split; [exact Hc1|exact Hc2].
Defined.

(** ** The further properties at work *)

Lemma refresh_changes_only_state_witness :
  lookup_watcher 0 moved = Some (sealed (Some (counter 1))) /\
  (exists s, lookup_watcher 0 (world_of (_update_flow_state 0 moved))
             = Some (with_state s (sealed (Some (counter 1))))) /\
  _CALLBACKS (world_of (_update_flow_state 0 moved)) = _CALLBACKS moved.
Proof.
  assert (Hl : lookup_watcher 0 moved = Some (sealed (Some (counter 1))))
    by (vm_compute; reflexivity).
  destruct (refresh_changes_only_state 0 moved _ Hl) as (Hs & _ & _ & Hc & _).
  split; [exact Hl|]. split; [exact Hs|exact Hc].
Defined.

Lemma refresh_failure_keeps_state_witness :
  _update_flow_state 0 cut_off
  = Raise (RemoteError "unreachable") (world_of (_update_flow_state 0 cut_off)) /\
  heap (world_of (_update_flow_state 0 cut_off)) = heap cut_off.
Proof.
  assert (Hr : _update_flow_state 0 cut_off
               = Raise (RemoteError "unreachable")
                   (world_of (_update_flow_state 0 cut_off)))
    by (vm_compute; reflexivity).
  split; [exact Hr|].
  exact (proj1 (refresh_failure_keeps_state 0 cut_off _ _ Hr)).
Defined.

Lemma refresh_rejects_other_values_witness :
  reachable emptied /\
  lookup_watcher 0 emptied = Some (sealed (Some (counter 1))) /\
  environ emptied !! "LIGHTNING_FLOW_NAME" = Some "my_flow" /\
  flows emptied "my_flow" = Fetched PyNone /\
  exists msg,
    _update_flow_state 0 emptied
    = Raise (ValueError msg)
        (set_trace (trace emptied ++ [EvFetch "my_flow"]) emptied).
Proof.
  assert (Hr : reachable emptied).
  { exists env, (serve (counter 1)),
      [Construct; Remote (fun _ => Fetched PyNone)]. reflexivity. }
  assert (Hl : lookup_watcher 0 emptied = Some (sealed (Some (counter 1))))
    by (vm_compute; reflexivity).
  assert (He : environ emptied !! "LIGHTNING_FLOW_NAME" = Some "my_flow")
    by (vm_compute; reflexivity).
  assert (Hf : flows emptied "my_flow" = Fetched PyNone)
    by (vm_compute; reflexivity).
  split; [exact Hr|]. split; [exact Hl|]. split; [exact He|]. split; [exact Hf|].
  apply (refresh_rejects_other_values 0 emptied _ _ _ Hr Hl eq_refl He Hf).
  intros a. discriminate.
Defined.

Lemma flow_name_read_each_time_witness :
  _CALLBACKS named !! 0 = Some 0 /\
  lookup_watcher 0 named = Some (sealed (Some (counter 1))) /\
  flows named "other_flow" = Fetched (PyAppState (counter 7)) /\
  lookup_watcher 0
    (run [Putenv "LIGHTNING_FLOW_NAME" "other_flow"; Call 0] named).2
  = Some (with_state (Some (counter 7)) (sealed (Some (counter 1)))).
Proof.
  assert (Hk : _CALLBACKS named !! 0 = Some 0) by (vm_compute; reflexivity).
  assert (Hl : lookup_watcher 0 named = Some (sealed (Some (counter 1))))
    by (vm_compute; reflexivity).
  assert (Hf : flows named "other_flow" = Fetched (PyAppState (counter 7)))
    by (vm_compute; reflexivity).
  split; [exact Hk|]. split; [exact Hl|]. split; [exact Hf|].
  exact (proj1 (proj2 (flow_name_read_each_time named 0 0 _ _ _ Hk Hl Hf))).
Defined.

Lemma first_construction_succeeds_witness :
  _instance fresh_start = None /\
  environ fresh_start !! "LIGHTNING_FLOW_NAME" = Some "my_flow" /\
  flows fresh_start "my_flow" = Fetched (PyAppState (counter 1)) /\
  exists w',
    AppStateWatcher fresh_start = Return 0 w' /\
    _instance w' = Some 0 /\
    lookup_watcher 0 w' = Some (sealed (Some (counter 1))) /\
    _CALLBACKS w' = [0] /\
    trace w' = [EvFetch "my_flow"; EvChange 0 None (Some (counter 1));
                EvDebug "Request app state"].
Proof.
  assert (He : environ fresh_start !! "LIGHTNING_FLOW_NAME" = Some "my_flow")
    by (vm_compute; reflexivity).
  split; [reflexivity|]. split; [exact He|]. split; [reflexivity|].
  exact (first_construction_succeeds fresh_start "my_flow" (counter 1)
           [("counter", 1%Z)] eq_refl He eq_refl eq_refl eq_refl eq_refl).
Defined.

Lemma first_fetch_of_none_witness :
  _instance none_start = None /\
  environ none_start !! "LIGHTNING_FLOW_NAME" = Some "my_flow" /\
  flows none_start "my_flow" = Fetched PyNone /\
  exists w',
    AppStateWatcher none_start
    = Raise (Exception ".state has not been set.") w' /\
    lookup_watcher 0 w' = Some (sealed None) /\
    _CALLBACKS w' = [0] /\
    AppStateWatcher w' = Raise (Exception ".state has not been set.") w'.
Proof.
  assert (He : environ none_start !! "LIGHTNING_FLOW_NAME" = Some "my_flow")
    by (vm_compute; reflexivity).
  split; [reflexivity|]. split; [exact He|]. split; [reflexivity|].
  exact (first_fetch_of_none none_start "my_flow" eq_refl He eq_refl).
Defined.

Lemma refresh_then_construct_witness :
  _instance unstuck = Some 0 /\
  lookup_watcher 0 unstuck = Some (sealed None) /\
  raised (AppStateWatcher unstuck)
  = Some (Exception ".state has not been set.") /\
  exists w1,
    _update_flow_state 0 unstuck = Return tt w1 /\
    lookup_watcher 0 w1 = Some (with_state (Some (counter 2)) (sealed None)) /\
    AppStateWatcher w1 = Return 0 w1.
Proof.
  assert (Hi : _instance unstuck = Some 0) by (vm_compute; reflexivity).
  assert (Hl : lookup_watcher 0 unstuck = Some (sealed None))
    by (vm_compute; reflexivity).
  assert (He : environ unstuck !! "LIGHTNING_FLOW_NAME" = Some "my_flow")
    by (vm_compute; reflexivity).
  assert (Hf : flows unstuck "my_flow" = Fetched (PyAppState (counter 2)))
    by (vm_compute; reflexivity).
  split; [exact Hi|]. split; [exact Hl|]. split; [vm_compute; reflexivity|].
  exact (refresh_then_construct unstuck 0 _ "my_flow" (counter 2)
           [("counter", 2%Z)] Hi Hl eq_refl He Hf eq_refl eq_refl eq_refl).
Defined.

Lemma lost_name_keeps_singleton_witness :
  _instance started = Some 0 /\
  lookup_watcher 0 started = Some (sealed (Some (counter 1))) /\
  _CALLBACKS started !! 0 = Some 0 /\
  (run [Unsetenv "LIGHTNING_FLOW_NAME"; Call 0; Construct] started).1
  = [Returned None; Raised (KeyError "LIGHTNING_FLOW_NAME");
     Returned (Some 0)] /\
  lookup_watcher 0
    (run [Unsetenv "LIGHTNING_FLOW_NAME"; Call 0; Construct] started).2
  = Some (sealed (Some (counter 1))).
Proof.
  assert (Hi : _instance started = Some 0) by (vm_compute; reflexivity).
  assert (Hl : lookup_watcher 0 started = Some (sealed (Some (counter 1))))
    by (vm_compute; reflexivity).
  assert (Hk : _CALLBACKS started !! 0 = Some 0) by (vm_compute; reflexivity).
  split; [exact Hi|]. split; [exact Hl|]. split; [exact Hk|].
  exact (lost_name_keeps_singleton started 0 _ 0 (counter 1) [("counter", 1%Z)]
           Hi Hl eq_refl eq_refl eq_refl eq_refl eq_refl Hk).
Defined.

Lemma first_construction_fetch_raises_witness :
  _instance unreachable_start = None /\
  environ unreachable_start !! "LIGHTNING_FLOW_NAME" = Some "my_flow" /\
  flows unreachable_start "my_flow" = FetchRaises (RemoteError "unreachable") /\
  exists w',
    AppStateWatcher unreachable_start = Raise (RemoteError "unreachable") w' /\
    _instance w' = Some 0 /\
    lookup_watcher 0 w' = Some (reset blank) /\
    _CALLBACKS w' = [0].
Proof.
  assert (He : environ unreachable_start !! "LIGHTNING_FLOW_NAME"
               = Some "my_flow") by (vm_compute; reflexivity).
  split; [reflexivity|]. split; [exact He|]. split; [reflexivity|].
  exact (first_construction_fetch_raises unreachable_start "my_flow" _
           eq_refl He eq_refl).
Defined.

Lemma state_stays_constant_witness :
  reachable cut_off /\
  lookup_watcher 0 cut_off = Some (sealed (Some (counter 1))) /\
  constant (sealed (Some (counter 1))) = true.
Proof.
  assert (Hr : reachable cut_off).
  { exists env, (serve (counter 1)),
      [Construct; Remote (fun _ => FetchRaises (RemoteError "unreachable"))].
    reflexivity. }
  assert (Hl : lookup_watcher 0 cut_off = Some (sealed (Some (counter 1))))
    by (vm_compute; reflexivity).
  split; [exact Hr|]. split; [exact Hl|].
  exact (state_stays_constant cut_off 0 _ Hr Hl).
Defined.

Lemma initialized_is_subscribed_witness :
  reachable emptied /\
  lookup_watcher 0 emptied = Some (sealed (Some (counter 1))) /\
  0 ∈ _CALLBACKS emptied.
Proof.
  assert (Hr : reachable emptied).
  { exists env, (serve (counter 1)),
      [Construct; Remote (fun _ => Fetched PyNone)]. reflexivity. }
  assert (Hl : lookup_watcher 0 emptied = Some (sealed (Some (counter 1))))
    by (vm_compute; reflexivity).
  split; [exact Hr|]. split; [exact Hl|].
  exact (initialized_is_subscribed emptied 0 _ Hr Hl eq_refl).
Defined.

Lemma retried_registry : _CALLBACKS retried = [0; 0].
Proof. vm_compute. reflexivity. Qed.

Lemma registry_holds_only_singleton_witness :
  reachable retried /\ 0 ∈ _CALLBACKS retried /\ _instance retried = Some 0.
Proof.
  assert (Hr : reachable retried).
  { exists ∅, (serve (counter 1)),
      [Construct; Putenv "LIGHTNING_FLOW_NAME" "my_flow"; Construct].
    reflexivity. }
  assert (Hin : 0 ∈ _CALLBACKS retried)
    by (rewrite retried_registry; apply list_elem_of_here).
  split; [exact Hr|]. split; [exact Hin|].
  exact (registry_holds_only_singleton retried 0 Hr Hin).
Defined.

